(** * Price elasticity model ([price_elasticity_model.py])

    A shallow embedding of the class [PriceElasticityModel]: the loader and
    cleaner ([load_data]), the per-category estimator
    ([calculate_elasticity]), the classifier ([_classify_demand] and the
    [can_increase_price] flag), the simulator ([simulate_price_change]) and
    the aggregate reporter ([get_summary_stats], [get_correlation]).

    Numbers.  Python floats are idealised as exact rationals ([Q]) extended
    with [NaN], the one non-finite value the module itself produces (missing
    cells, the mean of an empty column).  Infinities are outside the model,
    and so is rounding, with one exception: in the correlation, whether a
    column differs from its computed mean decides between a number and
    [NaN], so the mean NumPy computes is kept apart from the exact mean.  The
    correlation coefficient needs a square root and lives in [R].

    Effects.  A method is a function from the object's state to the new state
    and a [result]: a value or the exception raised.  Attribute updates made
    before an exception is raised stay in the returned state, as in Python. *)

From Stdlib Require Import List String Ascii Bool Arith ZArith QArith Qabs.
From Stdlib Require Import Lia Lqa Permutation Sorted.
From Stdlib Require Import Reals Lra Qreals.
Import ListNotations.

Open Scope string_scope.
Open Scope Q_scope.

(** ** Floats *)

Inductive float : Type :=
| Fin (q : Q)
| NaN.

Definition Qltb (x y : Q) : bool := negb (Qle_bool y x).

(** [x < y], [x > y] and [x == y] on floats: every comparison with [NaN] is
    false. *)
Definition fltb (x y : float) : bool :=
  match x, y with
  | Fin a, Fin b => Qltb a b
  | _, _ => false
  end.

Definition fgtb (x y : float) : bool := fltb y x.

Definition feqb (x y : float) : bool :=
  match x, y with
  | Fin a, Fin b => Qeq_bool a b
  | _, _ => false
  end.

Definition fmul (x y : float) : float :=
  match x, y with
  | Fin a, Fin b => Fin (a * b)
  | _, _ => NaN
  end.

Definition isnan (x : float) : bool :=
  match x with
  | NaN => true
  | Fin _ => false
  end.

(** Equality of floats as numbers: [Qeq] on finite values (two fractions of
    the same value are the same float). *)
Definition feq (x y : float) : Prop :=
  match x, y with
  | Fin a, Fin b => a == b
  | NaN, NaN => True
  | _, _ => False
  end.

(** ** Exceptions and results *)

Inductive exn : Type :=
| KeyError (missing : list string)
| TypeError
| ValueError.

Inductive result (A : Type) : Type :=
| Return (a : A)
| Raise (e : exn).

Arguments Return {A} a.
Arguments Raise {A} e.

Definition bind {A B : Type} (r : result A) (k : A -> result B) : result B :=
  match r with
  | Return a => k a
  | Raise e => Raise e
  end.

Notation "x <- r ;; k" := (bind r (fun x => k))
  (at level 61, r at next level, right associativity).

(** ** Series reductions (pandas skips [NaN] in [sum], [mean], [median]) *)

Fixpoint dropna_values (xs : list float) : list Q :=
  match xs with
  | [] => []
  | Fin q :: xs' => q :: dropna_values xs'
  | NaN :: xs' => dropna_values xs'
  end.

Definition Qsum (qs : list Q) : Q := fold_right Qplus 0 qs.

Definition series_sum (xs : list float) : float := Fin (Qsum (dropna_values xs)).

Definition series_mean (xs : list float) : float :=
  match dropna_values xs with
  | [] => NaN
  | qs => Fin (Qsum qs / inject_Z (Z.of_nat (List.length qs)))
  end.

Fixpoint Qinsert (x : Q) (l : list Q) : list Q :=
  match l with
  | [] => [x]
  | y :: l' => if Qle_bool x y then x :: l else y :: Qinsert x l'
  end.

Definition Qsort (l : list Q) : list Q := fold_right Qinsert [] l.

Definition series_median (xs : list float) : float :=
  match dropna_values xs with
  | [] => NaN
  | qs =>
      let s := Qsort qs in
      let n := List.length s in
      if Nat.even n
      then Fin ((nth (n / 2 - 1) s 0 + nth (n / 2) s 0) / 2)
      else Fin (nth (n / 2) s 0)
  end.

(** ** Tables read from CSV ([self.df]) *)

(** A cell is a number (a missing value is [NaN]) or text. *)
Inductive cell : Type :=
| Number (x : float)
| Text (s : string).

(** A data frame as read by [pd.read_csv]: the column labels and the rows,
    each row giving its cells in label order (a short row is padded with
    missing values).  A column read from CSV is homogeneous: numbers, or text
    with missing values; its labels are distinct.  A renaming can make two
    labels equal; pandas then answers [d[label]] with a sub-frame, which is
    not modelled: the properties of the loader are stated for labels that stay
    distinct. *)
Record DataFrame : Type := {
  columns : list string;
  rows : list (list cell)
}.

Definition len (d : DataFrame) : nat := List.length (rows d).

Fixpoint index_of (label : string) (labels : list string) : option nat :=
  match labels with
  | [] => None
  | l :: labels' =>
      if String.eqb l label then Some O
      else option_map S (index_of label labels')
  end.

Definition has_column (label : string) (d : DataFrame) : bool :=
  match index_of label (columns d) with
  | Some _ => true
  | None => false
  end.

Definition cell_at (i : nat) (row : list cell) : cell := nth i row (Number NaN).

(** [d[label]]: the cells of a column, or [KeyError]. *)
Definition get_column (label : string) (d : DataFrame) : result (list cell) :=
  match index_of label (columns d) with
  | Some i => Return (map (cell_at i) (rows d))
  | None => Raise (KeyError [label])
  end.

(** Boolean indexing [d[mask]], the mask given row by row. *)
Definition select_rows (keep : list cell -> bool) (d : DataFrame) : DataFrame :=
  {| columns := columns d; rows := filter keep (rows d) |}.

(** A Python dict with string keys, as an association list: assigning to a
    key already present replaces its value. *)
Definition dict : Type := list (string * string).

Fixpoint dict_set (k v : string) (m : dict) : dict :=
  match m with
  | [] => [(k, v)]
  | (k', v') :: m' =>
      if String.eqb k' k then (k', v) :: m' else (k', v') :: dict_set k v m'
  end.

Fixpoint dict_get (k : string) (m : dict) : option string :=
  match m with
  | [] => None
  | (k', v') :: m' => if String.eqb k' k then Some v' else dict_get k m'
  end.

(** [d.rename(columns=mapper)]: labels absent from the mapper are kept, keys
    of the mapper absent from the frame are ignored. *)
Definition rename (mapper : dict) (d : DataFrame) : DataFrame :=
  {| columns := map (fun l => match dict_get l mapper with
                              | Some l' => l'
                              | None => l
                              end) (columns d);
     rows := rows d |}.

Definition cell_isna (c : cell) : bool :=
  match c with
  | Number x => isnan x
  | Text _ => false
  end.

(** The cell of [row] under [label] (rows are read through the labels of
    their frame). *)
Definition cell_of (d : DataFrame) (label : string) (row : list cell) : cell :=
  match index_of label (columns d) with
  | Some i => cell_at i row
  | None => Number NaN
  end.

(** The labels of [subset] that are not columns of [d]. *)
Definition missing_labels (subset : list string) (d : DataFrame) : list string :=
  filter (fun l => negb (has_column l d)) subset.

(** [d.dropna(subset=labels)]: [KeyError] listing the labels that are not
    columns, otherwise the rows with no missing value under [labels]. *)
Definition dropna (subset : list string) (d : DataFrame) : result DataFrame :=
  match missing_labels subset d with
  | [] =>
      Return (select_rows
                (fun row => forallb (fun l => negb (cell_isna (cell_of d l row))) subset)
                d)
  | missing => Raise (KeyError missing)
  end.

(** The cells of a column as floats; comparing a text cell with a number, or
    taking its logarithm, raises [TypeError]. *)
Fixpoint to_numeric (cells : list cell) : result (list float) :=
  match cells with
  | [] => Return []
  | Number x :: cells' => xs <- to_numeric cells' ;; Return (x :: xs)
  | Text _ :: _ => Raise TypeError
  end.

Definition numeric_column (label : string) (d : DataFrame) : result (list float) :=
  cells <- get_column label d ;; to_numeric cells.

(** One entry of the mask [d[label] > 0]. *)
Definition gt_zero (d : DataFrame) (label : string) (row : list cell) : bool :=
  match cell_of d label row with
  | Number x => fgtb x (Fin 0)
  | Text _ => false
  end.

(** Equality of category labels, [df['category'] == category]: a missing
    label equals nothing, not even itself. *)
Definition cell_eqb (a b : cell) : bool :=
  match a, b with
  | Number x, Number y => feqb x y
  | Text s, Text t => String.eqb s t
  | _, _ => false
  end.

(** Identity of labels for [unique()]: as [cell_eqb], but all missing labels
    count as one value. *)
Definition cell_same (a b : cell) : bool :=
  match a, b with
  | Number NaN, Number NaN => true
  | _, _ => cell_eqb a b
  end.

(** [series.unique()]: the distinct values in order of first appearance. *)
Fixpoint unique_from (seen : list cell) (cells : list cell) : list cell :=
  match cells with
  | [] => []
  | c :: cells' =>
      if existsb (cell_same c) seen then unique_from seen cells'
      else c :: unique_from (c :: seen) cells'
  end.

Definition unique (cells : list cell) : list cell := unique_from [] cells.

(** ** Result rows ([self.elasticity_results]) *)

Inductive DemandType : Type :=
| HighlyInelastic
| Inelastic
| UnitElastic
| Elastic
| HighlyElastic.

(** The label stored in the [demand_type] column. *)
Definition demand_type_label (t : DemandType) : string :=
  match t with
  | HighlyInelastic => "Highly Inelastic"
  | Inelastic => "Inelastic"
  | UnitElastic => "Unit Elastic"
  | Elastic => "Elastic"
  | HighlyElastic => "Highly Elastic"
  end.

(** The values ['Yes'] and ['No'] of the [can_increase_price] column. *)
Inductive YesNo : Type :=
| Yes
| No.

Definition yes_no_label (f : YesNo) : string :=
  match f with
  | Yes => "Yes"
  | No => "No"
  end.

(** The dict appended for a fitted category. *)
Record Estimate : Type := {
  category : cell;
  elasticity : Q;
  p_value : float;
  r_squared : float;
  avg_price : float;
  median_price : float;
  total_sales : float;
  num_products : nat
}.

(** A row of the enriched table: the estimate and the two derived columns. *)
Record CategoryResult : Type := {
  estimate : Estimate;
  demand_type : DemandType;
  can_increase_price : YesNo
}.

(** [pd.DataFrame()] and [pd.DataFrame([])] have neither rows nor columns;
    every other result frame has all the columns and a list of rows, which
    filtering may leave empty. *)
Inductive ResultFrame : Type :=
| EmptyFrame
| Table (results : list CategoryResult).

(** ** The model object *)

Record PriceElasticityModel : Type := {
  elasticity_results : option ResultFrame;
  df : option DataFrame
}.

(** [__init__] *)
Definition init : PriceElasticityModel :=
  {| elasticity_results := None; df := None |}.

Definition set_df (self : PriceElasticityModel) (d : DataFrame) : PriceElasticityModel :=
  {| elasticity_results := elasticity_results self; df := Some d |}.

Definition set_elasticity_results (self : PriceElasticityModel) (t : ResultFrame)
  : PriceElasticityModel :=
  {| elasticity_results := Some t; df := df self |}.

(** ** [load_data] *)

Record LoadReport : Type := {
  original_size : nat;
  cleaned_size : nat;
  removed_records : Z;
  removal_pct : Q
}.

(** The mapper [{price_col: 'price', sales_col: 'sales', category_col:
    'category'}]: in a dict display a repeated key keeps its last value. *)
Definition column_mapper (price_col sales_col category_col : string) : dict :=
  dict_set category_col "category"
    (dict_set sales_col "sales"
       (dict_set price_col "price" [])).

(** [load_data(filepath, price_col, sales_col, category_col)].  Reading the
    file is the environment's: [csv] is the table [pd.read_csv(filepath)]
    returns. *)
Definition load_data (csv : DataFrame) (price_col sales_col category_col : string)
    (self : PriceElasticityModel) : PriceElasticityModel * result LoadReport :=
  let renamed := rename (column_mapper price_col sales_col category_col) csv in
  let self := set_df self renamed in
  let original_size := len renamed in
  match dropna ["price"; "sales"] renamed with
  | Raise e => (self, Raise e)
  | Return present =>
      let self := set_df self present in
      match (_ <- numeric_column "price" present ;;
             numeric_column "sales" present) with
      | Raise e => (self, Raise e)
      | Return _ =>
          let cleaned :=
            select_rows (fun row => gt_zero present "price" row
                                    && gt_zero present "sales" row) present in
          let self := set_df self cleaned in
          let removed := (Z.of_nat original_size - Z.of_nat (len cleaned))%Z in
          (self,
           Return {| original_size := original_size;
                     cleaned_size := len cleaned;
                     removed_records := removed;
                     removal_pct :=
                       if (0 <? original_size)%nat
                       then inject_Z removed / inject_Z (Z.of_nat original_size) * 100
                       else 0 |})
      end
  end.

(** ** The classifier *)

Definition _classify_demand (elasticity : Q) : DemandType :=
  let abs_elasticity := Qabs elasticity in
  if Qltb abs_elasticity 0.5 then HighlyInelastic
  else if Qltb abs_elasticity 1 then Inelastic
  else if Qeq_bool abs_elasticity 1 then UnitElastic
  else if Qltb 1 abs_elasticity && Qltb abs_elasticity 1.5 then Elastic
  else HighlyElastic.

(** [lambda x: 'No' if x > 1 else 'Yes'] *)
Definition can_increase_price_flag (x : Q) : YesNo :=
  if Qltb 1 x then No else Yes.

Definition enrich (e : Estimate) : CategoryResult :=
  {| estimate := e;
     demand_type := _classify_demand (elasticity e);
     can_increase_price := can_increase_price_flag (elasticity e) |}.

(** ** [sort_values] *)

(** [frame.sort_values(by)] argsorts the non-missing keys with NumPy's
    default kind, ['quicksort'], and places the rows with a missing key last,
    in their original order.  That kind orders the keys and promises nothing
    on the relative order of equal keys: the choice is NumPy's and is the
    parameter [tie], which is given the array of keys and the positions of two
    equal keys and answers whether the first goes before the second. *)
Section SortValues.

Variable tie : list Q -> nat -> nat -> bool.
Variable A : Type.
Variable key : A -> float.
Variable ascending : bool.

(** A row with a non-missing key, with its position in the key array. *)
Record keyed : Type := {
  position : nat;
  key_value : Q;
  item : A
}.

Fixpoint non_nans (l : list A) : list (Q * A) :=
  match l with
  | [] => []
  | a :: l' =>
      match key a with
      | Fin q => (q, a) :: non_nans l'
      | NaN => non_nans l'
      end
  end.

Definition enumerate (l : list (Q * A)) : list keyed :=
  map (fun p => {| position := fst p; key_value := fst (snd p); item := snd (snd p) |})
      (combine (seq 0 (List.length l)) l).

Definition goes_before (keys : list Q) (x y : keyed) : bool :=
  (if ascending then Qltb (key_value x) (key_value y)
   else Qltb (key_value y) (key_value x))
  || (Qeq_bool (key_value x) (key_value y) && tie keys (position x) (position y)).

Fixpoint place (keys : list Q) (x : keyed) (l : list keyed) : list keyed :=
  match l with
  | [] => [x]
  | y :: l' => if goes_before keys x y then x :: l else y :: place keys x l'
  end.

Definition argsort (l : list (Q * A)) : list keyed :=
  fold_right (place (map fst l)) [] (enumerate l).

Definition sort_values (l : list A) : list A :=
  map item (argsort (non_nans l)) ++ filter (fun a => isnan (key a)) l.

End SortValues.

Arguments position {A} k.
Arguments key_value {A} k.
Arguments item {A} k.

(** ** [calculate_elasticity] *)

(** What the fit of one category yields: [model.params['log_price']],
    [model.pvalues['log_price']] and [model.rsquared]. *)
Record OLSFit : Type := {
  params_log_price : Q;
  pvalues_log_price : float;
  rsquared : float
}.

Section Estimator.

(** The regression is statsmodels': [OLS_fit prices sales] stands for
    [sm.OLS(np.log(sales), sm.add_constant(np.log(prices))).fit()] on the
    prices and sales of one category, [None] when the fit raises (the
    [except] branch).  Logarithms are not rational, so the transformation
    is part of the parameter. *)
Variable OLS_fit : list float -> list float -> option OLSFit.

Variable tie : list Q -> nat -> nat -> bool.

(** The body of the loop over [self.df['category'].unique()]; [acc] is the
    list [elasticity_results] built so far. *)
Fixpoint fit_categories (d : DataFrame) (min_observations : Z)
    (categories : list cell) (acc : list Estimate) : result (list Estimate) :=
  match categories with
  | [] => Return acc
  | c :: categories' =>
      let cat_data :=
        select_rows (fun row => cell_eqb (cell_of d "category" row) c) d in
      if (Z.of_nat (len cat_data) <? min_observations)%Z
      then fit_categories d min_observations categories' acc
      else
        prices <- numeric_column "price" cat_data ;;
        sales <- numeric_column "sales" cat_data ;;
        match OLS_fit prices sales with
        | Some model =>
            fit_categories d min_observations categories'
              (acc ++ [{| category := c;
                          elasticity := params_log_price model;
                          p_value := pvalues_log_price model;
                          r_squared := rsquared model;
                          avg_price := series_mean prices;
                          median_price := series_median prices;
                          total_sales := series_sum sales;
                          num_products := len cat_data |}])
        | None => fit_categories d min_observations categories' acc
        end
  end.

(** The rows collected by the loop, before sorting. *)
Definition fitted (d : DataFrame) (min_observations : Z) : result (list Estimate) :=
  cats <- get_column "category" d ;;
  fit_categories d min_observations (unique cats) [].

(** [sort_values('elasticity', ascending=False)] *)
Definition sort_by_elasticity (l : list Estimate) : list Estimate :=
  sort_values tie Estimate (fun e => Fin (elasticity e)) false l.

(** [calculate_elasticity(min_observations)].  With no loaded table,
    [self.df] is [None] and subscripting it raises [TypeError].  When no
    category is fitted, [pd.DataFrame([])] has no column, it is stored, and
    sorting it by ['elasticity'] raises [KeyError]. *)
Definition calculate_elasticity (min_observations : Z) (self : PriceElasticityModel)
  : PriceElasticityModel * result ResultFrame :=
  match df self with
  | None => (self, Raise TypeError)
  | Some d =>
      match fitted d min_observations with
      | Raise e => (self, Raise e)
      | Return [] =>
          (set_elasticity_results self EmptyFrame, Raise (KeyError ["elasticity"]))
      | Return l =>
          let t := Table (map enrich (sort_by_elasticity l)) in
          (set_elasticity_results self t, Return t)
      end
  end.

(** [get_inelastic_categories()] *)
Definition get_inelastic_categories (self : PriceElasticityModel) : result ResultFrame :=
  match elasticity_results self with
  | None => Return EmptyFrame
  | Some EmptyFrame => Raise (KeyError ["elasticity"])
  | Some (Table l) =>
      Return (Table (sort_values tie CategoryResult
                       (fun r => avg_price (estimate r)) false
                       (filter (fun r => Qltb (elasticity (estimate r)) 1) l)))
  end.

(** [get_elastic_categories()] *)
Definition get_elastic_categories (self : PriceElasticityModel) : result ResultFrame :=
  match elasticity_results self with
  | None => Return EmptyFrame
  | Some EmptyFrame => Raise (KeyError ["elasticity"])
  | Some (Table l) =>
      Return (Table (sort_values tie CategoryResult
                       (fun r => Fin (elasticity (estimate r))) true
                       (filter (fun r => Qltb 1 (elasticity (estimate r))) l)))
  end.

End Estimator.

(** ** [simulate_price_change] *)

Module Simulation.

(** The dict returned by [simulate_price_change]. *)
Record SimulationResult : Type := {
  category : string;
  current_price : float;
  new_price : float;
  elasticity : Q;
  price_change_pct : Q;
  quantity_change_pct : Q;
  revenue_change_pct : Q;
  estimated_revenue_impact : float;
  current_total_sales : float
}.

End Simulation.

(** One entry of the mask [self.elasticity_results['category'] == category]. *)
Definition category_is (name : string) (r : CategoryResult) : bool :=
  cell_eqb (category (estimate r)) (Text name).

(** [simulate_price_change(category, price_change_pct)]; the absent result
    is [None]. *)
Definition simulate_price_change (category : string) (price_change_pct : Q)
    (self : PriceElasticityModel) : result (option Simulation.SimulationResult) :=
  match elasticity_results self with
  | None => Return None
  | Some EmptyFrame => Raise (KeyError ["category"])
  | Some (Table l) =>
      let category_data := filter (category_is category) l in
      match category_data with
      | [] => Return None
      | r :: _ =>
          let row := estimate r in
          let elasticity := elasticity row in
          let quantity_change := elasticity * price_change_pct in
          let revenue_change := (1 + price_change_pct) * (1 + quantity_change) - 1 in
          let estimated_revenue_impact := fmul (total_sales row) (Fin revenue_change) in
          Return (Some
            {| Simulation.category := category;
               Simulation.current_price := avg_price row;
               Simulation.new_price := fmul (avg_price row) (Fin (1 + price_change_pct));
               Simulation.elasticity := elasticity;
               Simulation.price_change_pct := price_change_pct * 100;
               Simulation.quantity_change_pct := quantity_change * 100;
               Simulation.revenue_change_pct := revenue_change * 100;
               Simulation.estimated_revenue_impact := estimated_revenue_impact;
               Simulation.current_total_sales := total_sales row |})
      end
  end.

(** ** [get_summary_stats] *)

Record SummaryStats : Type := {
  total_categories : nat;
  inelastic_categories : nat;
  elastic_categories : Z;
  inelastic_pct : Q;
  avg_elasticity : float;
  significant_results : nat;
  avg_r_squared : float
}.

(** [mask.sum()]: the number of rows the mask selects. *)
Definition count {A : Type} (mask : A -> bool) (l : list A) : nat :=
  List.length (filter mask l).

Definition get_summary_stats (self : PriceElasticityModel) : result (option SummaryStats) :=
  match elasticity_results self with
  | None => Return None
  | Some EmptyFrame => Raise (KeyError ["elasticity"])
  | Some (Table l) =>
      let inelastic_count := count (fun r => Qltb (elasticity (estimate r)) 1) l in
      let total_count := List.length l in
      Return (Some
        {| total_categories := total_count;
           inelastic_categories := inelastic_count;
           elastic_categories := (Z.of_nat total_count - Z.of_nat inelastic_count)%Z;
           inelastic_pct :=
             if (0 <? total_count)%nat
             then inject_Z (Z.of_nat inelastic_count)
                  / inject_Z (Z.of_nat total_count) * 100
             else 0;
           avg_elasticity := series_mean (map (fun r => Fin (elasticity (estimate r))) l);
           significant_results := count (fun r => fltb (p_value (estimate r)) (Fin 0.05)) l;
           avg_r_squared := series_mean (map (fun r => r_squared (estimate r)) l) |})
  end.

(** ** [get_correlation] *)

(** The correlation is a float whose finite values are real numbers. *)
Inductive rfloat : Type :=
| RFin (r : R)
| RNaN.

(** The exact mean of a list of numbers. *)
Definition Qmean (qs : list Q) : Q := Qsum qs / inject_Z (Z.of_nat (List.length qs)).

(** [np.clip(r, -1, 1)] *)
Definition clip (r : R) : R := Rmax (-1) (Rmin 1 r).

(** The pairs of observations where neither value is missing. *)
Fixpoint valid_pairs (xs ys : list float) : list (Q * Q) :=
  match xs, ys with
  | Fin x :: xs', Fin y :: ys' => (x, y) :: valid_pairs xs' ys'
  | _ :: xs', _ :: ys' => valid_pairs xs' ys'
  | _, _ => []
  end.

(** [series.to_numpy(dtype=float)]: text is not converted, [ValueError]. *)
Fixpoint to_float_array (cells : list cell) : result (list float) :=
  match cells with
  | [] => Return []
  | Number x :: cells' => xs <- to_float_array cells' ;; Return (x :: xs)
  | Text _ :: _ => Raise ValueError
  end.

Section Correlation.

(** [np.average] of a row of observations, as NumPy computes it in double
    precision.  The sum of the doubles is rounded, so the computed mean of a
    column need not be its exact mean: of 0.1, 0.1, 0.1 it is
    0.10000000000000002.  Which double comes out depends on NumPy's order of
    summation; it is the parameter [np_mean].  Whether a deviation from the
    mean is zero or not decides between a number and [NaN] below, which is
    why the rounding of the mean is kept; the arithmetic after it is
    idealised as exact, as everywhere else. *)
Variable np_mean : list Q -> Q.

(** [X -= avg[:, None]]: a row of observations minus its computed mean. *)
Definition deviations (xs : list Q) : list Q := map (fun x => x - np_mean xs) xs.

(** One entry of [dot(X, X.T)]. *)
Definition np_dot (us vs : list Q) : Q :=
  Qsum (map (fun p => fst p * snd p) (combine us vs)).

(** One entry of [np.cov]: [dot(X, X.T) * (1 / (N - 1))]. *)
Definition cov (xs ys : list Q) : Q :=
  np_dot (deviations xs) (deviations ys)
  * (1 / inject_Z (Z.of_nat (List.length xs) - 1)).

(** [np.corrcoef(xs, ys)[0, 1]]: the covariance divided by both standard
    deviations, [c / sqrt(d[0]) / sqrt(d[1])], and clipped.  NumPy tests
    nothing and divides: with one observation the covariance is [0 * inf],
    and when all the deviations of a row are zero, both its variance and the
    covariance are zero and the quotient is [0 / 0]; in both cases the float
    is [NaN]. *)
Definition corrcoef (xs ys : list Q) : rfloat :=
  if (List.length xs <=? 1)%nat then RNaN
  else
    let c := cov xs ys in
    let d0 := cov xs xs in
    let d1 := cov ys ys in
    if Qeq_bool d0 0 || Qeq_bool d1 0 then RNaN
    else RFin (clip (Q2R c / sqrt (Q2R d0) / sqrt (Q2R d1))).

(** [a.corr(b)] (Pearson): [NaN] on empty series, [ValueError] when a series
    holds text, [NaN] when no pair of observations is valid. *)
Definition series_corr (a b : list cell) : result rfloat :=
  match a with
  | [] => Return RNaN
  | _ =>
      xs <- to_float_array a ;;
      ys <- to_float_array b ;;
      let valid := valid_pairs xs ys in
      match valid with
      | [] => Return RNaN
      | _ => Return (corrcoef (map fst valid) (map snd valid))
      end
  end.

Definition get_correlation (self : PriceElasticityModel) : result (option rfloat) :=
  match df self with
  | None => Return None
  | Some d =>
      price <- get_column "price" d ;;
      sales <- get_column "sales" d ;;
      r <- series_corr price sales ;;
      Return (Some r)
  end.

End Correlation.

(** ** Sample inputs *)

(** A fit that reports the same slope for every category. *)
Definition constant_fit (slope : Q) (prices sales : list float) : option OLSFit :=
  Some {| params_log_price := slope;
          pvalues_log_price := Fin 0.01;
          rsquared := Fin 0.9 |}.

(** Two orders a sort may give to equal keys: the original order kept, and
    the original order reversed. *)
Definition keep_order (keys : list Q) (i j : nat) : bool := true.
Definition swap_order (keys : list Q) (i j : nat) : bool := false.




(** Double precision.  [round_double q] is the double nearest to [q] (ties to
    even), for [q] in the range of normal doubles: the value is scaled to an
    integer of 53 bits, rounded, and scaled back. *)
Definition round_half_even (a b : Z) : Z :=
  let q := (a / b)%Z in
  match (2 * (a mod b) ?= b)%Z with
  | Lt => q
  | Gt => (q + 1)%Z
  | Eq => if Z.even q then q else (q + 1)%Z
  end.

Definition scaled (n d e : Z) : Z * Z :=
  if (0 <=? e)%Z then (n, d * 2 ^ e)%Z else (n * 2 ^ (- e), d)%Z.

Definition binary_exponent (n d : Z) : Z :=
  let l := (Z.log2 n - Z.log2 d)%Z in
  let (a, b) := scaled n d l in
  if (b <=? a)%Z then l else (l - 1)%Z.

Definition round_double (q : Q) : Q :=
  let n := Z.abs (Qnum q) in
  let d := Zpos (Qden q) in
  if (n =? 0)%Z then 0
  else
    let e := (binary_exponent n d - 52)%Z in
    let (a, b) := scaled n d e in
    let m := (Z.sgn (Qnum q) * round_half_even a b)%Z in
    if (0 <=? e)%Z then inject_Z (m * 2 ^ e) else m # Z.to_pos (2 ^ (- e)).

(** The mean of a short array in double precision: the sum is accumulated
    from left to right, rounded at each step, and divided by the count.  (On
    fewer than eight values NumPy's pairwise summation is this loop.) *)
Definition double_sum (xs : list Q) : Q :=
  fold_left (fun acc x => round_double (acc + x)) xs 0.

Definition double_mean (xs : list Q) : Q :=
  round_double (double_sum xs / inject_Z (Z.of_nat (List.length xs))).

(** The double that [0.1] denotes, 0.1000000000000000055511151231257827. *)
Definition tenth : Q := round_double 0.1.

Definition sample_csv : DataFrame :=
  {| columns := ["Item_Type"; "Item_MRP"; "Item_Outlet_Sales"];
     rows := [ [Text "Dairy"; Number (Fin 10); Number (Fin 5)];
               [Text "Snacks"; Number (Fin 20); Number (Fin 7)];
               [Text "Dairy"; Number (Fin 30); Number NaN];
               [Text "Snacks"; Number (Fin (-1)); Number (Fin 7)];
               [Text "Dairy"; Number (Fin 12); Number (Fin 6)] ] |}.

(** The same table without its category column. *)
Definition csv_without_category : DataFrame :=
  {| columns := ["Item_MRP"; "Item_Outlet_Sales"];
     rows := [ [Number (Fin 10); Number (Fin 5)];
               [Number (Fin 20); Number (Fin 7)] ] |}.

(** The model after [load_data] on [sample_csv] with the default column
    names. *)
Definition sample_loaded : PriceElasticityModel :=
  fst (load_data sample_csv "Item_MRP" "Item_Outlet_Sales" "Item_Type" init).





(** Every product at the price 0.1. *)
Definition tenths_csv : DataFrame :=
  {| columns := ["Item_Type"; "Item_MRP"; "Item_Outlet_Sales"];
     rows := [ [Text "Dairy"; Number (Fin tenth); Number (Fin 5)];
               [Text "Snacks"; Number (Fin tenth); Number (Fin 7)];
               [Text "Dairy"; Number (Fin tenth); Number (Fin 6)] ] |}.

Definition tenths_loaded : PriceElasticityModel :=
  fst (load_data tenths_csv "Item_MRP" "Item_Outlet_Sales" "Item_Type" init).

(** The row of the simulation scenario: elasticity 0.6, average price 100,
    total sales 50000. *)
Definition scenario_row : CategoryResult :=
  enrich {| category := Text "Dairy";
            elasticity := 0.6;
            p_value := Fin 0.01;
            r_squared := Fin 0.9;
            avg_price := Fin 100;
            median_price := Fin 100;
            total_sales := Fin 50000;
            num_products := 12 |}.

Definition scenario_model : PriceElasticityModel :=
  {| elasticity_results := Some (Table [scenario_row]); df := None |}.

(** ** Statements of the specification *)

(** The rows kept by the cleaner: price and sales present and positive. *)
Definition clean_row (d : DataFrame) (row : list cell) : Prop :=
  exists price sales,
    cell_of d "price" row = Number (Fin price) /\ 0 < price
    /\ cell_of d "sales" row = Number (Fin sales) /\ 0 < sales.

(** Rows of equal elasticity stand in [after] in the order they have in
    [before]: what a stable sort guarantees. *)
Definition keeps_order_of_ties (before after : list CategoryResult) : Prop :=
  forall e : Q,
    filter (fun r => Qeq_bool (elasticity (estimate r)) e) after
    = filter (fun r => Qeq_bool (elasticity (estimate r)) e) before.


(** Every value of the column is [c]. *)
Definition constant_at (c : Q) (xs : list Q) : Prop := Forall (fun x => x == c) xs.

(** The sum of the products of the deviations of [xs] from [mx] and of [ys]
    from [my]. *)
Definition sum_of_products (mx my : Q) (xs ys : list Q) : Q :=
  Qsum (map (fun p => (fst p - mx) * (snd p - my)) (combine xs ys)).

(** The sample variance of a column: the sum of the squared deviations from
    the mean over [n - 1]. *)
Definition variance (xs : list Q) : Q :=
  sum_of_products (Qmean xs) (Qmean xs) xs xs
  / inject_Z (Z.of_nat (List.length xs) - 1).

(** The correlation coefficient with the deviations taken from [mx] and [my],
    as a real number: the sum of the products of the deviations over the
    square root of the product of the two sums of squares. *)
Definition pearson_about (mx my : Q) (xs ys : list Q) : R :=
  (Q2R (sum_of_products mx my xs ys)
   / sqrt (Q2R (sum_of_products mx mx xs xs) * Q2R (sum_of_products my my ys ys)))%R.

(** Pearson's correlation coefficient of two samples: the deviations are
    taken from the two means. *)
Definition pearson (xs ys : list Q) : R :=
  pearson_about (Qmean xs) (Qmean ys) xs ys.

(** ** Auxiliary notions of the proofs *)

(** A finite number as a cell. *)
Definition number (q : Q) : cell := Number (Fin q).

(** Descending order of the keys. *)
Definition key_desc {A : Type} (x y : keyed A) : Prop := key_value y <= key_value x.

(** Sums of products and of squares over a list of pairs. *)
Definition dot (l : list (Q * Q)) : Q := Qsum (map (fun p => fst p * snd p) l).
Definition squares_fst (l : list (Q * Q)) : Q := Qsum (map (fun p => fst p * fst p) l).
Definition squares_snd (l : list (Q * Q)) : Q := Qsum (map (fun p => snd p * snd p) l).

(** The pairs of deviations of [xs] from [mx] and of [ys] from [my]. *)
Definition shifted (mx my : Q) (xs ys : list Q) : list (Q * Q) :=
  map (fun p => (fst p - mx, snd p - my)) (combine xs ys).

(** ** Notions used to state further properties *)

(** The test the cleaner applies to a row: price and sales above zero. *)
Definition valid_row (d : DataFrame) (row : list cell) : bool :=
  gt_zero d "price" row && gt_zero d "sales" row.

Definition cell_is_text (c : cell) : bool :=
  match c with
  | Text _ => true
  | Number _ => false
  end.

(** A row that [dropna] keeps, and a row with text under price or sales. *)
Definition complete_row (d : DataFrame) (row : list cell) : bool :=
  negb (cell_isna (cell_of d "price" row)) && negb (cell_isna (cell_of d "sales" row)).

Definition text_row (d : DataFrame) (row : list cell) : bool :=
  cell_is_text (cell_of d "price" row) || cell_is_text (cell_of d "sales" row).

(** The rows of one category, [self.df[self.df['category'] == category]]. *)
Definition group (d : DataFrame) (c : cell) : DataFrame :=
  select_rows (fun row => cell_eqb (cell_of d "category" row) c) d.

(** Whether the loop appends a row for category [c]: the group is large
    enough, its prices and sales are numbers and the fit does not raise. *)
Definition is_fitted (OLS_fit : list float -> list float -> option OLSFit)
    (d : DataFrame) (min_observations : Z) (c : cell) : bool :=
  if (Z.of_nat (len (group d c)) <? min_observations)%Z then false
  else
    match numeric_column "price" (group d c), numeric_column "sales" (group d c) with
    | Return prices, Return sales =>
        match OLS_fit prices sales with
        | Some _ => true
        | None => false
        end
    | _, _ => false
    end.

(** The row the loop appends for category [c] of [d]. *)
Definition fitted_row (OLS_fit : list float -> list float -> option OLSFit)
    (d : DataFrame) (min_observations : Z) (e : Estimate) : Prop :=
  (min_observations <= Z.of_nat (len (group d (category e))))%Z
  /\ num_products e = len (group d (category e))
  /\ exists prices sales model,
       numeric_column "price" (group d (category e)) = Return prices
       /\ numeric_column "sales" (group d (category e)) = Return sales
       /\ OLS_fit prices sales = Some model
       /\ elasticity e = params_log_price model
       /\ p_value e = pvalues_log_price model
       /\ r_squared e = rsquared model
       /\ avg_price e = series_mean prices
       /\ median_price e = series_median prices
       /\ total_sales e = series_sum sales.

(** The order [sort_values] puts keys in: ascending or descending on the
    numbers, and every number before a missing key. *)
Definition key_le (ascending : bool) (x y : float) : Prop :=
  match x, y with
  | Fin a, Fin b => if ascending then a <= b else b <= a
  | _, NaN => True
  | NaN, Fin _ => False
  end.

(** The same order on the entries of an argsort. *)
Definition keyed_le {A : Type} (ascending : bool) (x y : keyed A) : Prop :=
  if ascending then key_value x <= key_value y else key_value y <= key_value x.

(** The demand types in the order of their thresholds. *)
Definition demand_rank (t : DemandType) : nat :=
  match t with
  | HighlyInelastic => 0
  | Inelastic => 1
  | UnitElastic => 2
  | Elastic => 3
  | HighlyElastic => 4
  end.

(** The number of rows of a table carrying the category label [c]. *)
Definition rows_of_category (c : cell) (l : list CategoryResult) : nat :=
  count (fun r => cell_same c (category (estimate r))) l.

(** ** The dashboard ([app.py]) *)

(** The colour of a category's bar in the overview:
    ['#27ae60' if x < 1 else '#e74c3c']. *)
Definition bar_color (x : Q) : string :=
  if Qltb x 1 then "#27ae60" else "#e74c3c".

(** The colours of the bars, one per row of the result table:
    [['#27ae60' if x < 1 else '#e74c3c' for x in results['elasticity']]]. *)
Definition bar_colors (l : list CategoryResult) : list string :=
  map (fun r => bar_color (elasticity (estimate r))) l.

(** The test that selects the message "Price change likely to improve
    revenue": [simulation['revenue_change_pct'] > 0]. *)
Definition improves_revenue (s : Simulation.SimulationResult) : bool :=
  Qltb 0 (Simulation.revenue_change_pct s).

(** * Properties *)

(** ** Comparisons on [Q] *)

Lemma Qltb_true (x y : Q) : Qltb x y = true <-> x < y.
Proof.
  unfold Qltb. rewrite negb_true_iff. split; intro H.
  - apply Qnot_le_lt. intro Hle. apply Qle_bool_iff in Hle. congruence.
  - destruct (Qle_bool y x) eqn:E; trivial.
    apply Qle_bool_iff in E. exfalso. apply (Qlt_not_le _ _ H E).
Qed.

Lemma Qltb_false (x y : Q) : Qltb x y = false <-> y <= x.
Proof.
  unfold Qltb. rewrite negb_false_iff. apply Qle_bool_iff.
Qed.

(** Turn the boolean tests of a goal into order facts, branch by branch. *)
Ltac by_cases_on_tests :=
  repeat match goal with
         | |- context [Qltb ?a ?b] =>
             let E := fresh "E" in
             destruct (Qltb a b) eqn:E;
             [apply Qltb_true in E | apply Qltb_false in E]
         | |- context [Qeq_bool ?a ?b] =>
             let E := fresh "E" in
             destruct (Qeq_bool a b) eqn:E;
             [apply Qeq_bool_iff in E | apply Qeq_bool_neq in E]
         end;
  cbn [andb orb negb].

(** ** The classifier *)

(** The five thresholds, read off the absolute value. *)
Lemma classify_demand_cases (e : Q) :
  (Qabs e < 0.5 -> _classify_demand e = HighlyInelastic)
  /\ (0.5 <= Qabs e /\ Qabs e < 1 -> _classify_demand e = Inelastic)
  /\ (Qabs e == 1 -> _classify_demand e = UnitElastic)
  /\ (1 < Qabs e /\ Qabs e < 1.5 -> _classify_demand e = Elastic)
  /\ (1.5 <= Qabs e -> _classify_demand e = HighlyElastic).
Proof.
  unfold _classify_demand. cbv zeta.
  repeat split; intros; by_cases_on_tests; try reflexivity; exfalso; Lqa.lra.
Qed.

Lemma classify_demand_abs (e e' : Q) :
  Qabs e' == Qabs e -> _classify_demand e' = _classify_demand e.
Proof.
  intro H. unfold _classify_demand. cbv zeta.
  by_cases_on_tests; try reflexivity; exfalso; Lqa.lra.
Qed.

(** C2.  The demand type of an elasticity depends only on its absolute value:
    below 0.5 highly inelastic, from 0.5 to below 1 inelastic, exactly 1 unit
    elastic, between 1 and 1.5 elastic, from 1.5 on highly elastic; with the
    six sample values of the specification. *)
Theorem classify_demand_thresholds (e : Q) :
  (forall e', Qabs e' == Qabs e -> _classify_demand e' = _classify_demand e)
  /\ (Qabs e < 0.5 -> _classify_demand e = HighlyInelastic)
  /\ (0.5 <= Qabs e /\ Qabs e < 1 -> _classify_demand e = Inelastic)
  /\ (Qabs e == 1 -> _classify_demand e = UnitElastic)
  /\ (1 < Qabs e /\ Qabs e < 1.5 -> _classify_demand e = Elastic)
  /\ (1.5 <= Qabs e -> _classify_demand e = HighlyElastic)
  /\ _classify_demand 0.3 = HighlyInelastic
  /\ _classify_demand 0.7 = Inelastic
  /\ _classify_demand 1.0 = UnitElastic
  /\ _classify_demand 1.2 = Elastic
  /\ _classify_demand 2.0 = HighlyElastic
  /\ _classify_demand (-1.2) = Elastic.
Proof.
  split; [intros e'; apply classify_demand_abs |].
  pose proof (classify_demand_cases e) as (H1 & H2 & H3 & H4 & H5).
  repeat (split; [assumption |]).
  repeat split; reflexivity.
Qed.

(** ** The pricing flag and the enrichment *)

Lemma can_increase_price_flag_yes (e : Q) :
  can_increase_price_flag e = Yes <-> e <= 1.
Proof.
  unfold can_increase_price_flag.
  destruct (Qltb 1 e) eqn:E.
  - apply Qltb_true in E. split; [discriminate | intro; exfalso; Lqa.lra].
  - apply Qltb_false in E. tauto.
Qed.

(** What a successful run of [calculate_elasticity] returns and stores. *)
Lemma calculate_elasticity_returns OLS_fit tie k self self' t :
  calculate_elasticity OLS_fit tie k self = (self', Return t) ->
  exists d l,
    df self = Some d
    /\ fitted OLS_fit d k = Return l
    /\ l <> []
    /\ t = Table (map enrich (sort_by_elasticity tie l))
    /\ self' = set_elasticity_results self t.
Proof.
  unfold calculate_elasticity.
  destruct (df self) as [d |] eqn:Hd; [| discriminate].
  destruct (fitted OLS_fit d k) as [l | e] eqn:Hf; [| discriminate].
  destruct l as [| x l]; [discriminate |].
  intro H. injection H as Hs Ht. exists d, (x :: l).
  subst t. repeat split; congruence.
Qed.

Lemma enrich_flags (l : list Estimate) :
  Forall (fun r => can_increase_price r = can_increase_price_flag (elasticity (estimate r))
                   /\ demand_type r = _classify_demand (elasticity (estimate r)))
         (map enrich l).
Proof.
  induction l as [| e l IH]; cbn [map]; constructor; auto.
Qed.

(** C3.  The flag is ['Yes'] exactly when the signed elasticity is at most 1
    (0.8 and -3.0 give yes, 1.5 gives no), and every row of the table that
    [calculate_elasticity] returns and stores carries the flag of its own
    elasticity. *)
Theorem can_increase_price_signed :
  (forall e, can_increase_price_flag e = Yes <-> e <= 1)
  /\ can_increase_price_flag 0.8 = Yes
  /\ can_increase_price_flag 1.5 = No
  /\ can_increase_price_flag (-3.0) = Yes
  /\ (forall OLS_fit tie k self self' t,
         calculate_elasticity OLS_fit tie k self = (self', Return t) ->
         exists l,
           t = Table l
           /\ elasticity_results self' = Some (Table l)
           /\ Forall (fun r => can_increase_price r
                               = can_increase_price_flag (elasticity (estimate r))) l).
Proof.
  split; [exact can_increase_price_flag_yes |].
  repeat (split; [reflexivity |]).
  intros OLS_fit tie k self self' t H.
  apply calculate_elasticity_returns in H as (d & l & _ & _ & _ & Ht & Hs).
  exists (map enrich (sort_by_elasticity tie l)). subst. repeat split.
  eapply Forall_impl; [| apply enrich_flags]. cbn. tauto.
Qed.

Lemma can_increase_price_signed_witness :
  exists l,
    snd (calculate_elasticity (constant_fit 1.5) keep_order 1 sample_loaded)
    = Return (Table l)
    /\ List.length l = 2%nat
    /\ Forall (fun r => can_increase_price r
                        = can_increase_price_flag (elasticity (estimate r))) l
    /\ can_increase_price_flag 1.5 = No.
Proof.
  destruct can_increase_price_signed as (_ & _ & Hno & _ & Hrows).
  destruct (Hrows (constant_fit 1.5) keep_order 1%Z sample_loaded _ _ eq_refl)
    as (l & Ht & _ & Hflags).
  exists l. injection Ht as <-.
  split; [reflexivity |]. split; [reflexivity |]. split; [exact Hflags | exact Hno].
Defined.

(** ** Before the estimation *)

(** C10.  While no result table exists, the simulation and the summary return
    [None] and the inelastic categories are the empty frame; while no data is
    loaded, the correlation is [None]. *)
Theorem absent_before_estimation tie np_mean (self : PriceElasticityModel)
    (category : string) (price_change_pct : Q) :
  elasticity_results self = None ->
  simulate_price_change category price_change_pct self = Return None
  /\ get_summary_stats self = Return None
  /\ get_inelastic_categories tie self = Return EmptyFrame
  /\ (df self = None -> get_correlation np_mean self = Return None).
Proof.
  intro H.
  unfold simulate_price_change, get_summary_stats, get_inelastic_categories,
    get_correlation.
  rewrite H. repeat split. intros ->. reflexivity.
Qed.

Lemma absent_before_estimation_witness :
  elasticity_results init = None
  /\ df init = None
  /\ simulate_price_change "Dairy" 0.05 init = Return None
  /\ get_summary_stats init = Return None
  /\ get_inelastic_categories keep_order init = Return EmptyFrame
  /\ get_correlation double_mean init = Return None.
Proof.
  destruct (absent_before_estimation keep_order double_mean init "Dairy" 0.05 eq_refl)
    as (H1 & H2 & H3 & H4).
  repeat split; auto.
Defined.

(** ** The simulator *)

Lemma cell_eqb_text (a : cell) (s : string) :
  cell_eqb a (Text s) = true <-> a = Text s.
Proof.
  destruct a as [x | t]; cbn.
  - split; discriminate.
  - rewrite String.eqb_eq. split; congruence.
Qed.

(** The first row of a filtered list is the first row that passes. *)
Lemma filter_first {A : Type} (f : A -> bool) (l : list A) :
  find f l = match filter f l with
             | [] => None
             | x :: _ => Some x
             end.
Proof.
  induction l as [| a l IH]; cbn; [reflexivity |].
  destruct (f a); auto.
Qed.

Lemma filter_nothing {A : Type} (f : A -> bool) (l : list A) :
  (forall x, In x l -> f x = false) -> filter f l = [].
Proof.
  induction l as [| a l IH]; cbn; intro H; [reflexivity |].
  rewrite (H a (or_introl eq_refl)). apply IH. intros x Hx. apply H. now right.
Qed.

(** C7.  When no row of the result table carries the requested category, the
    simulation returns [None]: no exception and no result record (so for the
    category Bakery in the scenario).  Not so on the result set that
    [calculate_elasticity] leaves when no category is fitted: the frame
    without columns is stored before the sort raises, no category matches a
    row of it, and the simulation raises [KeyError] on its ['category']
    column.  This is the case of the sample table with
    [min_observations = 10], whatever the regression. *)
Theorem simulate_unknown_category :
  (forall (l : list CategoryResult) (self : PriceElasticityModel)
          (category_name : string) (price_change_pct : Q),
     elasticity_results self = Some (Table l) ->
     (forall r, In r l -> category (estimate r) <> Text category_name) ->
     simulate_price_change category_name price_change_pct self = Return None)
  /\ (forall OLS_fit tie (min_observations : Z) (self : PriceElasticityModel)
             (d : DataFrame),
        df self = Some d ->
        fitted OLS_fit d min_observations = Return [] ->
        exists self',
          calculate_elasticity OLS_fit tie min_observations self
          = (self', Raise (KeyError ["elasticity"]))
          /\ elasticity_results self' = Some EmptyFrame
          /\ forall (category_name : string) (price_change_pct : Q),
               simulate_price_change category_name price_change_pct self'
               = Raise (KeyError ["category"]))
  /\ simulate_price_change "Bakery" 0.05 scenario_model = Return None
  /\ (forall OLS_fit tie,
        exists self',
          calculate_elasticity OLS_fit tie 10 sample_loaded
          = (self', Raise (KeyError ["elasticity"]))
          /\ simulate_price_change "Bakery" 0.05 self' = Raise (KeyError ["category"])).
Proof.
  split; [| split; [| split; [reflexivity |]]].
  - intros l self category_name price_change_pct Hs Hno.
    unfold simulate_price_change. rewrite Hs.
    rewrite filter_nothing; [reflexivity |].
    intros r Hin. destruct (category_is category_name r) eqn:E; [| reflexivity].
    apply cell_eqb_text in E. exfalso. exact (Hno r Hin E).
  - intros OLS_fit tie min_observations self d Hd Hl.
    exists (set_elasticity_results self EmptyFrame).
    unfold calculate_elasticity. rewrite Hd, Hl.
    split; [reflexivity |]. split; reflexivity.
  - intros OLS_fit tie.
    exists (set_elasticity_results sample_loaded EmptyFrame).
    split; reflexivity.
Qed.

(** C1 (as the code has it).  For the first row of the requested category the
    simulation returns the two changes as percentages, that is multiplied by
    100: the quantity change [elasticity * price_change_pct * 100] and the
    revenue change [((1 + p) * (1 + elasticity * p) - 1) * 100]; the new price
    is [avg_price * (1 + p)] and the revenue impact is [total_sales] times the
    revenue change as a fraction.  In the scenario (0.6, 100, 50000, 0.05)
    these are 3, 8.15, 105 and 4075. *)
Theorem simulate_price_change_formulas (l : list CategoryResult)
    (self : PriceElasticityModel) (category_name : string) (p : Q)
    (r : CategoryResult) :
  elasticity_results self = Some (Table l) ->
  find (category_is category_name) l = Some r ->
  exists s,
    simulate_price_change category_name p self = Return (Some s)
    /\ Simulation.quantity_change_pct s == elasticity (estimate r) * p * 100
    /\ Simulation.revenue_change_pct s
       == ((1 + p) * (1 + elasticity (estimate r) * p) - 1) * 100
    /\ Simulation.new_price s = fmul (avg_price (estimate r)) (Fin (1 + p))
    /\ Simulation.estimated_revenue_impact s
       = fmul (total_sales (estimate r))
              (Fin ((1 + p) * (1 + elasticity (estimate r) * p) - 1))
    /\ (elasticity (estimate r) == 0.6 ->
        avg_price (estimate r) = Fin 100 ->
        total_sales (estimate r) = Fin 50000 ->
        p == 0.05 ->
        Simulation.quantity_change_pct s == 3
        /\ Simulation.revenue_change_pct s == 8.15
        /\ feq (Simulation.new_price s) (Fin 105)
        /\ feq (Simulation.estimated_revenue_impact s) (Fin 4075)).
Proof.
  intros Hs Hfind. unfold simulate_price_change. rewrite Hs.
  rewrite filter_first in Hfind.
  destruct (filter (category_is category_name) l) as [| r' rest]; [discriminate |].
  injection Hfind as ->.
  eexists. split; [reflexivity |]. cbn.
  repeat (split; [reflexivity |]).
  intros He Ha Ht Hp. rewrite Ha, Ht. cbn. rewrite He, Hp.
  repeat split; vm_compute; reflexivity.
Qed.

Lemma simulate_price_change_formulas_witness :
  exists s,
    simulate_price_change "Dairy" 0.05 scenario_model = Return (Some s)
    /\ Simulation.quantity_change_pct s == 3
    /\ Simulation.revenue_change_pct s == 8.15
    /\ feq (Simulation.new_price s) (Fin 105)
    /\ feq (Simulation.estimated_revenue_impact s) (Fin 4075).
Proof.
  destruct (simulate_price_change_formulas [scenario_row] scenario_model "Dairy" 0.05
              scenario_row eq_refl eq_refl)
    as (s & Hs & _ & _ & _ & _ & Hex).
  exists s. split; [exact Hs |].
  apply Hex; reflexivity.
Defined.

(** C1, as stated, fails in the scenario: the quantity and revenue changes
    returned are 3 and 8.15, not 0.03 and 0.0815. *)
Lemma simulate_returns_percentages :
  exists s,
    simulate_price_change "Dairy" 0.05 scenario_model = Return (Some s)
    /\ Simulation.quantity_change_pct s == 3
    /\ ~ Simulation.quantity_change_pct s == 0.03
    /\ Simulation.revenue_change_pct s == 8.15
    /\ ~ Simulation.revenue_change_pct s == 0.0815.
Proof.
  eexists. split; [reflexivity |]. cbn.
  repeat split; try (vm_compute; reflexivity); vm_compute; discriminate.
Qed.

(** ** The summary *)

(** C4.  On a table with no rows the counts and the inelastic share are 0,
    but the two means are [NaN]; and when no category reaches
    [min_observations], [calculate_elasticity] stores the frame without
    columns and raises, after which the summary raises [KeyError]. *)
Theorem summary_of_zero_rows :
  get_summary_stats {| elasticity_results := Some (Table []); df := None |}
  = Return (Some {| total_categories := 0;
                    inelastic_categories := 0;
                    elastic_categories := 0;
                    inelastic_pct := 0;
                    avg_elasticity := NaN;
                    significant_results := 0;
                    avg_r_squared := NaN |})
  /\ calculate_elasticity (constant_fit 0.5) keep_order 10 sample_loaded
     = (set_elasticity_results sample_loaded EmptyFrame, Raise (KeyError ["elasticity"]))
  /\ get_summary_stats (set_elasticity_results sample_loaded EmptyFrame)
     = Raise (KeyError ["elasticity"]).
Proof.
  split; [reflexivity |]. split; [vm_compute; reflexivity | reflexivity].
Qed.

(** ** Sorting *)

Section SortValuesFacts.

Variable tie : list Q -> nat -> nat -> bool.
Variable A : Type.
Variable key : A -> float.

Lemma place_permutation ascending keys (x : keyed A) (l : list (keyed A)) :
  Permutation (place tie A ascending keys x l) (x :: l).
Proof.
  induction l as [| y l IH]; cbn; [reflexivity |].
  destruct (goes_before tie A ascending keys x y); [reflexivity |].
  rewrite IH. apply perm_swap.
Qed.

Lemma argsort_permutation ascending (l : list (Q * A)) :
  Permutation (argsort tie A ascending l) (enumerate A l).
Proof.
  unfold argsort. induction (enumerate A l) as [| x e IH]; cbn; [reflexivity |].
  rewrite place_permutation. now constructor.
Qed.

Lemma goes_before_desc keys (x y : keyed A) :
  goes_before tie A false keys x y = true -> key_desc x y.
Proof.
  unfold goes_before, key_desc. intro H.
  apply orb_true_iff in H as [H | H].
  - apply Qltb_true in H. now apply Qlt_le_weak.
  - apply andb_true_iff in H as [H _]. apply Qeq_bool_iff in H.
    rewrite H. apply Qle_refl.
Qed.

Lemma not_goes_before_desc keys (x y : keyed A) :
  goes_before tie A false keys x y = false -> key_desc y x.
Proof.
  unfold goes_before, key_desc. intro H.
  apply orb_false_iff in H as [H _]. now apply Qltb_false in H.
Qed.

Lemma place_sorted keys (x : keyed A) (l : list (keyed A)) :
  Sorted key_desc l -> Sorted key_desc (place tie A false keys x l).
Proof.
  induction l as [| y l IH]; cbn; intro Hs.
  - constructor; constructor.
  - destruct (goes_before tie A false keys x y) eqn:E.
    + constructor; [exact Hs |]. constructor. now apply goes_before_desc in E.
    + inversion Hs as [| ? ? Hl Hhd]; subst.
      constructor; [now apply IH |].
      apply not_goes_before_desc in E.
      destruct l as [| z l]; cbn.
      * now constructor.
      * destruct (goes_before tie A false keys x z); constructor; trivial.
        now inversion Hhd.
Qed.

Lemma argsort_sorted (l : list (Q * A)) :
  Sorted key_desc (argsort tie A false l).
Proof.
  unfold argsort. induction (enumerate A l) as [| x e IH]; cbn.
  - constructor.
  - now apply place_sorted.
Qed.

Lemma enumerate_items (l : list (Q * A)) :
  map (fun k => (key_value k, item k)) (enumerate A l) = l.
Proof.
  unfold enumerate. rewrite map_map. cbn.
  generalize 0%nat. induction l as [| [q a] l IH]; intro n; cbn; [reflexivity |].
  now rewrite IH.
Qed.

End SortValuesFacts.

(** Sorting by elasticity: no key is missing, so the frame is the argsort of
    all its rows. *)
Lemma non_nans_elasticity (l : list Estimate) :
  non_nans Estimate (fun e => Fin (elasticity e)) l = map (fun e => (elasticity e, e)) l.
Proof.
  induction l as [| e l IH]; cbn; [reflexivity | now rewrite IH].
Qed.

Lemma sort_by_elasticity_argsort tie (l : list Estimate) :
  sort_by_elasticity tie l
  = map item (argsort tie Estimate false (map (fun e => (elasticity e, e)) l)).
Proof.
  unfold sort_by_elasticity, sort_values. rewrite non_nans_elasticity.
  rewrite filter_nothing; [apply app_nil_r | reflexivity].
Qed.

(** Every entry of the argsort carries the elasticity of its row as key. *)
Lemma enumerate_keys (l : list Estimate) :
  Forall (fun k => key_value k = elasticity (item k))
         (enumerate Estimate (map (fun e => (elasticity e, e)) l)).
Proof.
  apply Forall_forall. intros k Hk.
  apply (in_map (fun k => (key_value k, item k))) in Hk.
  rewrite enumerate_items in Hk. apply in_map_iff in Hk as (e & He & _).
  cbn in He. injection He as Hkey Hitem. now rewrite <- Hitem.
Qed.

Lemma argsort_keys tie (l : list Estimate) :
  Forall (fun k => key_value k = elasticity (item k))
         (argsort tie Estimate false (map (fun e => (elasticity e, e)) l)).
Proof.
  eapply Permutation_Forall; [symmetry; apply argsort_permutation |].
  apply enumerate_keys.
Qed.

Lemma sort_by_elasticity_permutation tie (l : list Estimate) :
  Permutation (sort_by_elasticity tie l) l.
Proof.
  rewrite sort_by_elasticity_argsort.
  rewrite (argsort_permutation tie Estimate false).
  replace (map item (enumerate Estimate (map (fun e => (elasticity e, e)) l)))
    with (map snd (map (fun k => (key_value k, item k))
                       (enumerate Estimate (map (fun e => (elasticity e, e)) l)))).
  - rewrite enumerate_items, map_map. cbn. now rewrite map_id.
  - now rewrite map_map.
Qed.

Lemma sort_by_elasticity_sorted tie (l : list Estimate) :
  Sorted (fun a b => elasticity b <= elasticity a) (sort_by_elasticity tie l).
Proof.
  rewrite sort_by_elasticity_argsort.
  pose proof (argsort_sorted tie Estimate (map (fun e => (elasticity e, e)) l)) as Hs.
  pose proof (argsort_keys tie l) as Hk.
  induction Hs as [| k ks Hs IH Hhd]; cbn; [constructor |].
  inversion Hk as [| ? ? Hk1 Hk2]; subst.
  constructor; [now apply IH |].
  destruct Hhd as [| k' ks' Hd]; cbn; constructor.
  inversion Hk2 as [| ? ? Hk3 _]; subst.
  unfold key_desc in Hd. now rewrite Hk1, Hk3 in Hd.
Qed.


Lemma Sorted_map {A B : Type} (R : A -> A -> Prop) (R' : B -> B -> Prop)
    (f : A -> B) (l : list A) :
  (forall x y, R x y -> R' (f x) (f y)) -> Sorted R l -> Sorted R' (map f l).
Proof.
  intros Hf. induction 1 as [| x l Hs IH Hhd]; cbn; constructor; trivial.
  destruct Hhd; cbn; constructor; auto.
Qed.

(** When the sort keeps equal keys in their original order, rows of equal
    elasticity keep their insertion order: the stable outcome is one of those
    the parameter [tie] allows. *)
Lemma place_keeps_ties keys (e : Q) (x : keyed Estimate) (l : list (keyed Estimate)) :
  filter (fun k => Qeq_bool (key_value k) e) (place keep_order Estimate false keys x l)
  = if Qeq_bool (key_value x) e
    then x :: filter (fun k => Qeq_bool (key_value k) e) l
    else filter (fun k => Qeq_bool (key_value k) e) l.
Proof.
  induction l as [| y l IH]; cbn [place filter]; [reflexivity |].
  destruct (goes_before keep_order Estimate false keys x y) eqn:E;
    cbn [filter]; [reflexivity |].
  rewrite IH.
  unfold goes_before, keep_order in E.
  apply orb_false_iff in E as [_ E]. rewrite andb_true_r in E.
  destruct (Qeq_bool (key_value x) e) eqn:Ex, (Qeq_bool (key_value y) e) eqn:Ey;
    try reflexivity.
  exfalso. apply Qeq_bool_iff in Ex, Ey.
  apply Qeq_bool_neq in E. apply E. now rewrite Ex, Ey.
Qed.

Lemma argsort_keeps_ties (e : Q) (l : list (Q * Estimate)) :
  filter (fun k => Qeq_bool (key_value k) e) (argsort keep_order Estimate false l)
  = filter (fun k => Qeq_bool (key_value k) e) (enumerate Estimate l).
Proof.
  unfold argsort. induction (enumerate Estimate l) as [| x ks IH]; [reflexivity |].
  cbn [fold_right]. rewrite place_keeps_ties, IH. reflexivity.
Qed.

Lemma filter_by_key (e : Q) (ks : list (keyed Estimate)) :
  Forall (fun k => key_value k = elasticity (item k)) ks ->
  filter (fun r => Qeq_bool (elasticity (estimate r)) e) (map enrich (map item ks))
  = map enrich (map item (filter (fun k => Qeq_bool (key_value k) e) ks)).
Proof.
  induction 1 as [| k ks Hk _ IH]; cbn; [reflexivity |].
  rewrite <- Hk. destruct (Qeq_bool (key_value k) e); cbn; now rewrite IH.
Qed.

Lemma stable_when_ties_kept (l : list Estimate) :
  keeps_order_of_ties (map enrich l) (map enrich (sort_by_elasticity keep_order l)).
Proof.
  intro e. rewrite sort_by_elasticity_argsort.
  rewrite (filter_by_key e _ (argsort_keys keep_order l)).
  rewrite argsort_keeps_ties.
  rewrite <- (filter_by_key e _ (enumerate_keys l)).
  do 2 f_equal.
  replace (map item (enumerate Estimate (map (fun e => (elasticity e, e)) l)))
    with (map snd (map (fun k => (key_value k, item k))
                       (enumerate Estimate (map (fun e => (elasticity e, e)) l))))
    by now rewrite map_map.
  rewrite enumerate_items, map_map. cbn. now rewrite map_id.
Qed.






(** ** The loader *)

Lemma filter_length_bound {A : Type} (f : A -> bool) (l : list A) :
  (List.length (filter f l) <= List.length l)%nat.
Proof.
  induction l as [| a l IH]; cbn; [lia |].
  destruct (f a); cbn; lia.
Qed.

Lemma missing_labels_nil (subset : list string) (d : DataFrame) :
  missing_labels subset d = [] -> Forall (fun l => has_column l d = true) subset.
Proof.
  intro E. apply Forall_forall. intros l Hl.
  destruct (has_column l d) eqn:Hc; [reflexivity |].
  assert (Hin : In l (missing_labels subset d)).
  { apply filter_In. split; [exact Hl | now rewrite Hc]. }
  rewrite E in Hin. destruct Hin.
Qed.

Lemma dropna_returns (subset : list string) (d present : DataFrame) :
  dropna subset d = Return present ->
  columns present = columns d
  /\ (len present <= len d)%nat
  /\ Forall (fun l => has_column l d = true) subset.
Proof.
  unfold dropna.
  destruct (missing_labels subset d) as [| m ms] eqn:E; [| discriminate].
  intro H. injection H as <-. cbn. repeat split.
  - apply filter_length_bound.
  - now apply missing_labels_nil.
Qed.

(** What a successful [load_data] stores and reports. *)
Lemma load_data_returns csv price_col sales_col category_col self self' report :
  load_data csv price_col sales_col category_col self = (self', Return report) ->
  exists present,
    let cleaned :=
      select_rows (fun row => gt_zero present "price" row
                              && gt_zero present "sales" row) present in
    dropna ["price"; "sales"]
      (rename (column_mapper price_col sales_col category_col) csv)
    = Return present
    /\ self' = {| elasticity_results := elasticity_results self; df := Some cleaned |}
    /\ original_size report = len csv
    /\ cleaned_size report = len cleaned
    /\ removed_records report = (Z.of_nat (len csv) - Z.of_nat (len cleaned))%Z
    /\ removal_pct report
       = if (0 <? len csv)%nat
         then inject_Z (removed_records report) / inject_Z (Z.of_nat (len csv)) * 100
         else 0.
Proof.
  unfold load_data.
  destruct (dropna _ _) as [present | e] eqn:Hdrop; [| discriminate].
  destruct (bind _ _) as [ok | e]; [| discriminate].
  intro H. injection H as <- <-. exists present. cbn.
  repeat split; assumption.
Qed.

Lemma gt_zero_positive (d : DataFrame) (label : string) (row : list cell) :
  gt_zero d label row = true ->
  exists q, cell_of d label row = Number (Fin q) /\ 0 < q.
Proof.
  unfold gt_zero. destruct (cell_of d label row) as [[q |] | s]; cbn; try discriminate.
  intro H. apply Qltb_true in H. now exists q.
Qed.

Lemma cleaned_rows_clean (present : DataFrame) :
  let cleaned :=
    select_rows (fun row => gt_zero present "price" row
                            && gt_zero present "sales" row) present in
  Forall (clean_row cleaned) (rows cleaned).
Proof.
  cbn. apply Forall_forall. intros row Hin.
  apply filter_In in Hin as [_ H]. apply andb_true_iff in H as [Hp Hs].
  apply gt_zero_positive in Hp as (p & Hp & Hp0).
  apply gt_zero_positive in Hs as (s & Hs & Hs0).
  exists p, s. unfold cell_of in *. cbn. auto.
Qed.

(** C6.  After a successful load every row of the stored table has a price
    and a sales value that are present and positive; the report's
    [removed_records] is the original size minus the cleaned size and is not
    negative, and [removal_pct] is 0 when the original table is empty.
    Column labels are taken to be distinct after the renaming. *)
Theorem load_data_cleaned csv price_col sales_col category_col self self' report :
  NoDup (columns (rename (column_mapper price_col sales_col category_col) csv)) ->
  load_data csv price_col sales_col category_col self = (self', Return report) ->
  exists cleaned,
    df self' = Some cleaned
    /\ Forall (clean_row cleaned) (rows cleaned)
    /\ original_size report = len csv
    /\ cleaned_size report = len cleaned
    /\ removed_records report
       = (Z.of_nat (original_size report) - Z.of_nat (cleaned_size report))%Z
    /\ (0 <= removed_records report)%Z
    /\ (original_size report = 0%nat -> removal_pct report == 0).
Proof.
  intros _ H.
  apply load_data_returns in H as (present & Hdrop & Hself & Ho & Hc & Hr & Hpct).
  cbv zeta in *.
  eexists. split; [rewrite Hself; reflexivity |].
  split; [apply cleaned_rows_clean |].
  split; [exact Ho |]. split; [exact Hc |].
  split; [rewrite Ho, Hc; exact Hr |]. split.
  - rewrite Hr. apply dropna_returns in Hdrop as (_ & Hle & _).
    pose proof (filter_length_bound
                  (fun row => gt_zero present "price" row && gt_zero present "sales" row)
                  (rows present)) as Hf.
    unfold len in *. cbn in *. lia.
  - intro H0. rewrite Hpct. rewrite Ho in H0. rewrite H0. cbn. reflexivity.
Qed.

Lemma load_data_cleaned_witness :
  exists cleaned report,
    load_data sample_csv "Item_MRP" "Item_Outlet_Sales" "Item_Type" init
    = ({| elasticity_results := None; df := Some cleaned |}, Return report)
    /\ Forall (clean_row cleaned) (rows cleaned)
    /\ original_size report = 5%nat
    /\ cleaned_size report = 3%nat
    /\ removed_records report = 2%Z.
Proof.
  assert (Hnodup : NoDup (columns (rename (column_mapper "Item_MRP" "Item_Outlet_Sales"
                                             "Item_Type") sample_csv))).
  { cbn. repeat constructor; cbn; intuition discriminate. }
  destruct (load_data_cleaned sample_csv "Item_MRP" "Item_Outlet_Sales" "Item_Type"
              init _ _ Hnodup eq_refl)
    as (cleaned & Hdf & Hrows & _).
  cbn in Hdf. injection Hdf as <-.
  eexists. eexists. split; [reflexivity |]. split; [exact Hrows |].
  repeat split.
Defined.

Lemma to_numeric_raises (cells : list cell) (e : exn) :
  to_numeric cells = Raise e -> e = TypeError.
Proof.
  induction cells as [| [x | t] cells IH]; cbn; try discriminate.
  - destruct (to_numeric cells); cbn; [discriminate |].
    intro H. injection H as ->. now apply IH.
  - intro H. now injection H.
Qed.

Lemma numeric_column_raises (label : string) (d : DataFrame) (e : exn) :
  has_column label d = true -> numeric_column label d = Raise e -> e = TypeError.
Proof.
  unfold has_column, numeric_column, get_column.
  destruct (index_of label (columns d)); [| discriminate].
  cbn. intros _. apply to_numeric_raises.
Qed.

(** C9 (as the code has it).  When the renamed table lacks the column
    ['price'] or ['sales'], the load raises [KeyError] with the missing ones of
    these two labels, returns no report and leaves the renamed, uncleaned
    table in [self.df]; when both are present it raises no [KeyError],
    whatever the category selector. *)
Theorem load_data_missing_column csv price_col sales_col category_col self :
  let renamed := rename (column_mapper price_col sales_col category_col) csv in
  let missing := missing_labels ["price"; "sales"] renamed in
  (missing <> [] ->
   load_data csv price_col sales_col category_col self
   = (set_df self renamed, Raise (KeyError missing)))
  /\ (missing = [] ->
      forall labels,
        snd (load_data csv price_col sales_col category_col self)
        <> Raise (KeyError labels)).
Proof.
  cbv zeta. unfold load_data, dropna. split.
  - intro Hne.
    destruct (missing_labels _ _) as [| m ms]; [contradiction | reflexivity].
  - intros Hm labels. rewrite Hm.
    apply missing_labels_nil in Hm.
    inversion Hm as [| ? ? Hprice Hrest]; subst.
    inversion Hrest as [| ? ? Hsales _]; subst.
    set (renamed := rename _ csv) in *.
    set (present := select_rows _ renamed).
    destruct (numeric_column "price" present) as [ps | e] eqn:Ep; cbn.
    + destruct (numeric_column "sales" present) as [ss | e] eqn:Es; cbn;
        [discriminate |].
      apply numeric_column_raises in Es; [subst e; discriminate | exact Hsales].
    + apply numeric_column_raises in Ep; [subst e; discriminate | exact Hprice].
Qed.

Lemma load_data_missing_column_witness :
  missing_labels ["price"; "sales"]
    (rename (column_mapper "MRP" "Item_Outlet_Sales" "Item_Type") sample_csv)
  = ["price"]
  /\ load_data sample_csv "MRP" "Item_Outlet_Sales" "Item_Type" init
     = (set_df init (rename (column_mapper "MRP" "Item_Outlet_Sales" "Item_Type")
                       sample_csv),
        Raise (KeyError ["price"])).
Proof.
  split; [reflexivity |].
  apply (load_data_missing_column sample_csv "MRP" "Item_Outlet_Sales" "Item_Type" init).
  discriminate.
Defined.

(** C9, as stated, fails for the category selector: a table with price and
    sales columns and no category column loads without error. *)
Lemma load_data_ignores_category :
  has_column "Item_Type" csv_without_category = false
  /\ exists self' report,
       load_data csv_without_category "Item_MRP" "Item_Outlet_Sales" "Item_Type" init
       = (self', Return report)
       /\ has_column "category" (rename (column_mapper "Item_MRP" "Item_Outlet_Sales"
                                           "Item_Type") csv_without_category) = false
       /\ cleaned_size report = 2%nat.
Proof.
  split; [reflexivity |].
  eexists. eexists. split; [reflexivity |]. split; reflexivity.
Qed.

(** ** The correlation *)

(** *** The Cauchy-Schwarz inequality on lists of pairs *)

Lemma Qsquare_nonneg (x : Q) : 0 <= x * x.
Proof. destruct (Qlt_le_dec x 0); Lqa.nra. Qed.

Lemma squares_nonneg (l : list (Q * Q)) : 0 <= squares_fst l /\ 0 <= squares_snd l.
Proof.
  induction l as [| [a b] l [IHa IHb]]; unfold squares_fst, squares_snd, Qsum in *;
    cbn [map fold_right fst snd].
  - split; apply Qle_refl.
  - pose proof (Qsquare_nonneg a). pose proof (Qsquare_nonneg b). split; Lqa.lra.
Qed.

Lemma cauchy_schwarz (l : list (Q * Q)) :
  dot l * dot l <= squares_fst l * squares_snd l.
Proof.
  induction l as [| [a b] l IH].
  - unfold dot, squares_fst, squares_snd, Qsum. cbn [map fold_right]. Lqa.lra.
  - destruct (squares_nonneg l) as [HA HB].
    unfold dot, squares_fst, squares_snd, Qsum in *. cbn [map fold_right fst snd].
    set (C := fold_right Qplus 0 (map (fun p => fst p * snd p) l)) in *.
    set (A := fold_right Qplus 0 (map (fun p => fst p * fst p) l)) in *.
    set (B := fold_right Qplus 0 (map (fun p => snd p * snd p) l)) in *.
    assert (H : 2 * a * b * C <= a * a * B + A * b * b).
    { destruct (Qlt_le_dec 0 B) as [HB0 | HB0].
      - pose proof (Qsquare_nonneg (a * B - b * C)) as H1.
        assert (H2 : 0 <= b * b * (A * B - C * C)).
        { apply Qmult_le_0_compat; [apply Qsquare_nonneg | Lqa.lra]. }
        assert (H3 : 0 <= B * (a * a * B + A * b * b - 2 * a * b * C)) by Lqa.lra.
        Lqa.nra.
      - assert (HB1 : B == 0) by Lqa.lra.
        assert (HC : C == 0).
        { pose proof (Qsquare_nonneg C). rewrite HB1 in IH. Lqa.nra. }
        rewrite HB1, HC. pose proof (Qsquare_nonneg b). Lqa.nra. }
    Lqa.lra.
Qed.

(** *** Sums over the deviations *)

Lemma products_of_maps (f g : Q -> Q) (xs ys : list Q) :
  map (fun p => fst p * snd p) (combine (map f xs) (map g ys))
  = map (fun p => f (fst p) * g (snd p)) (combine xs ys).
Proof.
  revert ys. induction xs as [| x xs IH]; intros [| y ys]; cbn; try reflexivity.
  now rewrite IH.
Qed.

(** The covariance NumPy computes is the sum of the products of the
    deviations from the computed means, over [n - 1]. *)
Lemma cov_sum np_mean (xs ys : list Q) :
  cov np_mean xs ys
  = sum_of_products (np_mean xs) (np_mean ys) xs ys
    * (1 / inject_Z (Z.of_nat (List.length xs) - 1)).
Proof.
  unfold cov, np_dot, deviations, sum_of_products.
  now rewrite products_of_maps.
Qed.

Lemma sum_of_products_dot (mx my : Q) (xs ys : list Q) :
  sum_of_products mx my xs ys = dot (shifted mx my xs ys).
Proof.
  unfold sum_of_products, dot, shifted. now rewrite map_map.
Qed.

Lemma sum_of_squares_fst (mx my : Q) (xs ys : list Q) :
  List.length xs = List.length ys ->
  sum_of_products mx mx xs xs = squares_fst (shifted mx my xs ys).
Proof.
  unfold sum_of_products, squares_fst, shifted. rewrite map_map. cbn [fst snd].
  revert ys. induction xs as [| x xs IH]; intros [| y ys] H; cbn in *;
    try reflexivity; try discriminate.
  unfold Qsum in *. cbn [fold_right]. f_equal. apply IH. lia.
Qed.

Lemma sum_of_squares_snd (mx my : Q) (xs ys : list Q) :
  List.length xs = List.length ys ->
  sum_of_products my my ys ys = squares_snd (shifted mx my xs ys).
Proof.
  unfold sum_of_products, squares_snd, shifted. rewrite map_map. cbn [fst snd].
  revert ys. induction xs as [| x xs IH]; intros [| y ys] H; cbn in *;
    try reflexivity; try discriminate.
  unfold Qsum in *. cbn [fold_right]. f_equal. apply IH. lia.
Qed.

(** The sums of squares are not negative and the squared sum of products is
    at most their product. *)
Lemma sums_bound (mx my : Q) (xs ys : list Q) :
  List.length xs = List.length ys ->
  0 <= sum_of_products mx mx xs xs
  /\ 0 <= sum_of_products my my ys ys
  /\ sum_of_products mx my xs ys * sum_of_products mx my xs ys
     <= sum_of_products mx mx xs xs * sum_of_products my my ys ys.
Proof.
  intro Hlen.
  rewrite (sum_of_squares_fst mx my xs ys Hlen), (sum_of_squares_snd mx my xs ys Hlen),
    sum_of_products_dot.
  destruct (squares_nonneg (shifted mx my xs ys)) as [HA HB].
  repeat split; trivial. apply cauchy_schwarz.
Qed.

Lemma sum_of_squares_nonneg (m : Q) (xs : list Q) : 0 <= sum_of_products m m xs xs.
Proof. now destruct (sums_bound m m xs xs eq_refl). Qed.

Lemma sum_of_squares_cons (m x : Q) (xs : list Q) :
  sum_of_products m m (x :: xs) (x :: xs)
  = (x - m) * (x - m) + sum_of_products m m xs xs.
Proof. reflexivity. Qed.

(** A sum of squared deviations from [m] is zero exactly when every value is
    [m]. *)
Lemma sum_of_squares_zero (m : Q) (xs : list Q) :
  sum_of_products m m xs xs == 0 <-> constant_at m xs.
Proof.
  unfold constant_at. induction xs as [| x xs IH].
  - split; [constructor | reflexivity].
  - rewrite sum_of_squares_cons.
    pose proof (sum_of_squares_nonneg m xs) as Hrest.
    pose proof (Qsquare_nonneg (x - m)) as Hsq.
    split.
    + intro H.
      assert (H0 : (x - m) * (x - m) == 0) by Lqa.lra.
      assert (Hr : sum_of_products m m xs xs == 0) by Lqa.lra.
      constructor; [| now apply IH].
      destruct (Qmult_integral _ _ H0); Lqa.lra.
    + intro H. inversion H as [| ? ? Hx Hxs]; subst.
      apply IH in Hxs. rewrite Hxs.
      setoid_replace (x - m) with 0 by Lqa.lra. Lqa.lra.
Qed.

Lemma constant_at_mean (m m' : Q) (xs : list Q) :
  m == m' -> constant_at m xs -> constant_at m' xs.
Proof.
  intros E H. unfold constant_at in *.
  eapply Forall_impl; [| exact H]. cbn. intros x Hx. now rewrite Hx.
Qed.

Lemma sum_of_products_mean (mx mx' my my' : Q) (xs ys : list Q) :
  mx == mx' -> my == my' ->
  sum_of_products mx my xs ys == sum_of_products mx' my' xs ys.
Proof.
  intros Ex Ey. unfold sum_of_products.
  induction (combine xs ys) as [| [x y] l IH]; [reflexivity |].
  unfold Qsum in *. cbn [map fold_right fst snd]. now rewrite IH, Ex, Ey.
Qed.

Lemma pearson_about_mean (mx mx' my my' : Q) (xs ys : list Q) :
  mx == mx' -> my == my' ->
  pearson_about mx my xs ys = pearson_about mx' my' xs ys.
Proof.
  intros Ex Ey. unfold pearson_about.
  now rewrite (Qeq_eqR _ _ (sum_of_products_mean mx mx' my my' xs ys Ex Ey)),
    (Qeq_eqR _ _ (sum_of_products_mean mx mx' mx mx' xs xs Ex Ex)),
    (Qeq_eqR _ _ (sum_of_products_mean my my' my my' ys ys Ey Ey)).
Qed.

Lemma denominator_positive (n : nat) :
  (2 <= n)%nat -> 0 < inject_Z (Z.of_nat n - 1).
Proof.
  intro H. replace 0 with (inject_Z 0) by reflexivity.
  rewrite <- Zlt_Qlt. lia.
Qed.

Lemma factor_positive (n : nat) :
  (2 <= n)%nat -> 0 < 1 / inject_Z (Z.of_nat n - 1).
Proof.
  intro H. apply denominator_positive in H.
  unfold Qdiv. rewrite Qmult_1_l. now apply Qinv_lt_0_compat.
Qed.

(** With two values or more, the variance of a column is zero exactly when
    the column is constant, at its mean. *)
Lemma variance_zero (xs : list Q) :
  (2 <= List.length xs)%nat ->
  variance xs == 0 <-> constant_at (Qmean xs) xs.
Proof.
  intro Hn. rewrite <- sum_of_squares_zero. unfold variance.
  pose proof (denominator_positive _ Hn) as Hk.
  set (k := inject_Z (Z.of_nat (List.length xs) - 1)) in *.
  set (S := sum_of_products (Qmean xs) (Qmean xs) xs xs).
  split; intro H.
  - assert (E : S == S / k * k) by (field; Lqa.lra).
    rewrite E, H. ring.
  - rewrite H. field. Lqa.lra.
Qed.

(** *** The quotient is between -1 and 1 *)

Lemma quotient_bounded (c x y : R) :
  (0 < x -> 0 < y -> c * c <= x * y -> -1 <= c / (sqrt x * sqrt y) <= 1)%R.
Proof.
  intros Hx Hy Hc.
  pose proof (sqrt_lt_R0 x Hx) as Hsx. pose proof (sqrt_lt_R0 y Hy) as Hsy.
  pose proof (sqrt_sqrt x (Rlt_le _ _ Hx)) as Ex.
  pose proof (sqrt_sqrt y (Rlt_le _ _ Hy)) as Ey.
  set (sx := sqrt x) in *. set (sy := sqrt y) in *.
  assert (Hp : (0 < sx * sy)%R) by now apply Rmult_lt_0_compat.
  assert (Hsq : (c * c <= (sx * sy) * (sx * sy))%R) by Lra.nra.
  assert (Hb : (- (sx * sy) <= c <= sx * sy)%R) by Lra.nra.
  split.
  - apply Rmult_le_reg_r with (sx * sy)%R; [exact Hp |].
    unfold Rdiv. rewrite Rmult_assoc, Rinv_l; Lra.lra.
  - apply Rmult_le_reg_r with (sx * sy)%R; [exact Hp |].
    unfold Rdiv. rewrite Rmult_assoc, Rinv_l; Lra.lra.
Qed.

Lemma clip_inside (r : R) : (-1 <= r <= 1)%R -> clip r = r.
Proof.
  intros [H1 H2]. unfold clip. rewrite Rmin_right by exact H2.
  now rewrite Rmax_right.
Qed.

Lemma positive_in_R (q : Q) : 0 < q -> (0 < Q2R q)%R.
Proof.
  intro H. rewrite <- RMicromega.Q2R_0. now apply Qlt_Rlt.
Qed.

(** The factor [1 / (n - 1)] cancels in the quotient of the covariance by
    the two standard deviations. *)
Lemma quotient_of_scaled (a x y k : R) :
  (0 < x -> 0 < y -> 0 < k ->
   a * k / sqrt (x * k) / sqrt (y * k) = a / sqrt (x * y))%R.
Proof.
  intros Hx Hy Hk.
  rewrite !sqrt_mult by Lra.lra.
  pose proof (sqrt_lt_R0 x Hx). pose proof (sqrt_lt_R0 y Hy).
  pose proof (sqrt_lt_R0 k Hk) as Hsk.
  pose proof (sqrt_sqrt k (Rlt_le _ _ Hk)) as Ek.
  rewrite <- Ek at 1. field. repeat split; Lra.lra.
Qed.

(** [corrcoef] is [NaN] on fewer than two observations and when a column is
    constant at its computed mean; otherwise it is the correlation
    coefficient about the computed means, a number between -1 and 1. *)
Lemma corrcoef_cases np_mean (xs ys : list Q) :
  List.length xs = List.length ys ->
  ((List.length xs < 2)%nat -> corrcoef np_mean xs ys = RNaN)
  /\ (constant_at (np_mean xs) xs \/ constant_at (np_mean ys) ys ->
      corrcoef np_mean xs ys = RNaN)
  /\ ((2 <= List.length xs)%nat ->
      ~ constant_at (np_mean xs) xs -> ~ constant_at (np_mean ys) ys ->
      corrcoef np_mean xs ys
      = RFin (pearson_about (np_mean xs) (np_mean ys) xs ys)
      /\ (-1 <= pearson_about (np_mean xs) (np_mean ys) xs ys <= 1)%R).
Proof.
  intro Hlen. unfold corrcoef. cbv zeta. rewrite !cov_sum. rewrite <- Hlen.
  set (mx := np_mean xs). set (my := np_mean ys).
  set (k := 1 / inject_Z (Z.of_nat (List.length xs) - 1)).
  split; [| split].
  - intro H. destruct (Nat.leb_spec (List.length xs) 1); [reflexivity | lia].
  - intros H. destruct (List.length xs <=? 1)%nat; [reflexivity |].
    destruct H as [H | H]; apply sum_of_squares_zero in H.
    + assert (E : sum_of_products mx mx xs xs * k == 0) by (rewrite H; ring).
      apply Qeq_bool_iff in E. now rewrite E.
    + assert (E : sum_of_products my my ys ys * k == 0) by (rewrite H; ring).
      apply Qeq_bool_iff in E. rewrite E. now rewrite orb_true_r.
  - intros Hn Hx Hy.
    destruct (Nat.leb_spec (List.length xs) 1); [lia |].
    pose proof (factor_positive _ Hn) as Hk. fold k in Hk.
    destruct (sums_bound mx my xs ys Hlen) as (Hvx & Hvy & Hc).
    rewrite <- sum_of_squares_zero in Hx, Hy.
    assert (Hpx : 0 < sum_of_products mx mx xs xs).
    { apply Qle_lt_or_eq in Hvx as [? | E]; [assumption |].
      exfalso. apply Hx. now symmetry. }
    assert (Hpy : 0 < sum_of_products my my ys ys).
    { apply Qle_lt_or_eq in Hvy as [? | E]; [assumption |].
      exfalso. apply Hy. now symmetry. }
    destruct (Qeq_bool (sum_of_products mx mx xs xs * k) 0) eqn:Ex.
    { apply Qeq_bool_iff in Ex. exfalso.
      pose proof (Qmult_lt_0_compat _ _ Hpx Hk). Lqa.lra. }
    destruct (Qeq_bool (sum_of_products my my ys ys * k) 0) eqn:Ey.
    { apply Qeq_bool_iff in Ey. exfalso.
      pose proof (Qmult_lt_0_compat _ _ Hpy Hk). Lqa.lra. }
    cbn [orb].
    apply positive_in_R in Hpx, Hpy, Hk.
    apply Qle_Rle in Hc. rewrite !Q2R_mult in Hc.
    pose proof (quotient_bounded _ _ _ Hpx Hpy Hc) as Hb.
    rewrite <- sqrt_mult in Hb by Lra.lra.
    rewrite !Q2R_mult, (quotient_of_scaled _ _ _ _ Hpx Hpy Hk).
    fold (pearson_about mx my xs ys). fold (pearson_about mx my xs ys) in Hb.
    split; [| exact Hb]. now rewrite clip_inside.
Qed.

(** Without covariance the coefficient is zero. *)
Lemma corrcoef_no_covariance np_mean (xs ys : list Q) :
  List.length xs = List.length ys ->
  (2 <= List.length xs)%nat ->
  ~ cov np_mean xs xs == 0 ->
  ~ cov np_mean ys ys == 0 ->
  cov np_mean xs ys == 0 ->
  corrcoef np_mean xs ys = RFin 0.
Proof.
  intros Hlen Hn Hx Hy Hc. unfold corrcoef. cbv zeta.
  destruct (Nat.leb_spec (List.length xs) 1); [lia |].
  destruct (Qeq_bool (cov np_mean xs xs) 0) eqn:Ex;
    [apply Qeq_bool_iff in Ex; contradiction |].
  destruct (Qeq_bool (cov np_mean ys ys) 0) eqn:Ey;
    [apply Qeq_bool_iff in Ey; contradiction |].
  cbn [orb]. f_equal.
  rewrite (Qeq_eqR _ _ Hc), RMicromega.Q2R_0.
  unfold Rdiv. rewrite !Rmult_0_l. apply clip_inside. Lra.lra.
Qed.

(** *** The columns of a cleaned table *)

Lemma clean_columns (d : DataFrame) (rs : list (list cell)) :
  Forall (clean_row d) rs ->
  exists prices sales,
    map (cell_of d "price") rs = map number prices
    /\ map (cell_of d "sales") rs = map number sales
    /\ List.length prices = List.length rs
    /\ List.length sales = List.length rs.
Proof.
  induction 1 as [| row rs (p & s & Hp & _ & Hs & _) _ (ps & ss & IHp & IHs & Lp & Ls)].
  - exists [], []. repeat split.
  - exists (p :: ps), (s :: ss). cbn. rewrite Hp, Hs, IHp, IHs, Lp, Ls. repeat split.
Qed.

Lemma to_numeric_numbers (qs : list Q) :
  to_numeric (map number qs) = Return (map Fin qs).
Proof.
  induction qs as [| q qs IH]; cbn; [reflexivity | now rewrite IH].
Qed.

Lemma to_float_array_numbers (qs : list Q) :
  to_float_array (map number qs) = Return (map Fin qs).
Proof.
  induction qs as [| q qs IH]; cbn; [reflexivity | now rewrite IH].
Qed.

Lemma valid_pairs_finite (xs ys : list Q) :
  valid_pairs (map Fin xs) (map Fin ys) = combine xs ys.
Proof.
  revert ys. induction xs as [| x xs IH]; intros [| y ys]; cbn; try reflexivity.
  now rewrite IH.
Qed.

Lemma combine_fst_snd (xs ys : list Q) :
  List.length xs = List.length ys ->
  map fst (combine xs ys) = xs /\ map snd (combine xs ys) = ys.
Proof.
  revert ys. induction xs as [| x xs IH]; intros [| y ys] H; cbn in *;
    try discriminate; [split; reflexivity |].
  destruct (IH ys) as [-> ->]; [lia | split; reflexivity].
Qed.

Lemma get_column_cells (label : string) (d : DataFrame) :
  has_column label d = true ->
  get_column label d = Return (map (cell_of d label) (rows d)).
Proof.
  unfold has_column, get_column, cell_of.
  destruct (index_of label (columns d)); [reflexivity | discriminate].
Qed.

Lemma series_corr_numbers np_mean (xs ys : list Q) :
  List.length xs = List.length ys ->
  series_corr np_mean (map number xs) (map number ys)
  = Return (match xs with
            | [] => RNaN
            | _ => corrcoef np_mean xs ys
            end).
Proof.
  intro H. unfold series_corr.
  destruct xs as [| x xs]; [reflexivity |].
  destruct ys as [| y ys]; [discriminate |].
  rewrite !to_float_array_numbers. cbn [bind]. rewrite valid_pairs_finite.
  destruct (combine_fst_snd (x :: xs) (y :: ys) H) as [Hf Hs].
  cbn [combine] in *. now rewrite Hf, Hs.
Qed.

(** On the table a successful load stores, both columns are numbers and the
    correlation is NumPy's coefficient of the two columns. *)
Lemma correlation_of_loaded np_mean csv price_col sales_col category_col self self' report :
  load_data csv price_col sales_col category_col self = (self', Return report) ->
  exists cleaned prices sales,
    df self' = Some cleaned
    /\ numeric_column "price" cleaned = Return (map Fin prices)
    /\ numeric_column "sales" cleaned = Return (map Fin sales)
    /\ List.length prices = len cleaned
    /\ List.length sales = len cleaned
    /\ get_correlation np_mean self' = Return (Some (corrcoef np_mean prices sales)).
Proof.
  intro H.
  apply load_data_returns in H as (present & Hdrop & Hself & _).
  cbv zeta in Hself.
  set (cleaned := select_rows _ present) in Hself.
  pose proof (cleaned_rows_clean present) as Hclean. cbv zeta in Hclean.
  fold cleaned in Hclean.
  apply dropna_returns in Hdrop as (Hcols & _ & Hhas).
  assert (Hprice : has_column "price" cleaned = true).
  { inversion Hhas as [| ? ? Hp _]; subst.
    unfold has_column in *. cbn. now rewrite Hcols. }
  assert (Hsales : has_column "sales" cleaned = true).
  { inversion Hhas as [| ? ? _ Hrest]; subst. inversion Hrest as [| ? ? Hs _]; subst.
    unfold has_column in *. cbn. now rewrite Hcols. }
  destruct (clean_columns cleaned (rows cleaned) Hclean)
    as (prices & sales & Ep & Es & Lp & Ls).
  assert (Hlen : List.length prices = List.length sales) by congruence.
  exists cleaned, prices, sales. unfold len.
  split; [now rewrite Hself |].
  split. { unfold numeric_column. rewrite (get_column_cells _ _ Hprice), Ep.
           apply to_numeric_numbers. }
  split. { unfold numeric_column. rewrite (get_column_cells _ _ Hsales), Es.
           apply to_numeric_numbers. }
  split; [exact Lp |]. split; [exact Ls |].
  unfold get_correlation. rewrite Hself. cbn [df].
  rewrite (get_column_cells "price" cleaned Hprice), Ep.
  rewrite (get_column_cells "sales" cleaned Hsales), Es.
  cbn [bind]. rewrite (series_corr_numbers np_mean prices sales Hlen). cbn [bind].
  destruct prices; [| reflexivity]. reflexivity.
Qed.

(** C8 (as the code has it).  On the table a successful load stores, the
    correlation is returned without an exception.  It is [NaN] when the
    table has fewer than two rows, and when every price equals the computed
    mean price or every sales value the computed mean of the sales;
    otherwise it is the correlation coefficient about the computed means, a
    real number between -1 and 1.  When the two computed means are the exact
    means, this is what the claim says: [NaN] on a zero variance and
    Pearson's coefficient otherwise.  Column labels are taken to be distinct
    after the renaming. *)
Theorem correlation_of_cleaned np_mean csv price_col sales_col category_col
    self self' report :
  NoDup (columns (rename (column_mapper price_col sales_col category_col) csv)) ->
  load_data csv price_col sales_col category_col self = (self', Return report) ->
  exists cleaned prices sales,
    df self' = Some cleaned
    /\ numeric_column "price" cleaned = Return (map Fin prices)
    /\ numeric_column "sales" cleaned = Return (map Fin sales)
    /\ List.length prices = len cleaned
    /\ List.length sales = len cleaned
    /\ ((len cleaned < 2)%nat ->
        get_correlation np_mean self' = Return (Some RNaN))
    /\ (constant_at (np_mean prices) prices \/ constant_at (np_mean sales) sales ->
        get_correlation np_mean self' = Return (Some RNaN))
    /\ ((2 <= len cleaned)%nat ->
        ~ constant_at (np_mean prices) prices ->
        ~ constant_at (np_mean sales) sales ->
        get_correlation np_mean self'
        = Return (Some (RFin (pearson_about (np_mean prices) (np_mean sales)
                                            prices sales)))
        /\ (-1 <= pearson_about (np_mean prices) (np_mean sales) prices sales <= 1)%R)
    /\ (np_mean prices == Qmean prices ->
        np_mean sales == Qmean sales ->
        ((len cleaned < 2)%nat \/ variance prices == 0 \/ variance sales == 0 ->
         get_correlation np_mean self' = Return (Some RNaN))
        /\ ((2 <= len cleaned)%nat ->
            ~ variance prices == 0 -> ~ variance sales == 0 ->
            get_correlation np_mean self' = Return (Some (RFin (pearson prices sales)))
            /\ (-1 <= pearson prices sales <= 1)%R)).
Proof.
  intros _ H.
  destruct (correlation_of_loaded np_mean _ _ _ _ _ _ _ H)
    as (cleaned & prices & sales & Hdf & Hp & Hs & Lp & Ls & Hcorr).
  assert (Hlen : List.length prices = List.length sales) by congruence.
  destruct (corrcoef_cases np_mean prices sales Hlen) as (Hfew & Hnan & Hfin).
  exists cleaned, prices, sales.
  repeat (split; [assumption |]).
  rewrite <- Lp. rewrite Hcorr.
  split; [intro Hn; now rewrite (Hfew Hn) |].
  split; [intro Hc; now rewrite (Hnan Hc) |].
  split.
  { intros Hn Hx Hy. destruct (Hfin Hn Hx Hy) as [E Hb].
    split; [now rewrite E | exact Hb]. }
  intros Ex Ey. split.
  - intros [Hn | Hv]; [now rewrite (Hfew Hn) |].
    destruct (Nat.lt_ge_cases (List.length prices) 2) as [Hn | Hn];
      [now rewrite (Hfew Hn) |].
    rewrite Hnan; [reflexivity |].
    destruct Hv as [Hv | Hv].
    + left. apply variance_zero in Hv; [| exact Hn].
      apply (constant_at_mean (Qmean prices)); [now symmetry | exact Hv].
    + right. apply variance_zero in Hv; [| now rewrite <- Hlen].
      apply (constant_at_mean (Qmean sales)); [now symmetry | exact Hv].
  - intros Hn Hx Hy.
    destruct (Hfin Hn) as [E Hb].
    + intro Hc. apply Hx. apply variance_zero; [exact Hn |].
      exact (constant_at_mean _ _ _ Ex Hc).
    + intro Hc. apply Hy. apply variance_zero; [now rewrite <- Hlen |].
      exact (constant_at_mean _ _ _ Ey Hc).
    + unfold pearson.
      rewrite <- (pearson_about_mean _ _ _ _ prices sales Ex Ey).
      split; [now rewrite E | exact Hb].
Qed.

Lemma correlation_of_cleaned_witness :
  exists r,
    get_correlation double_mean sample_loaded = Return (Some (RFin r))
    /\ r = pearson [10; 20; 12] [5; 7; 6]
    /\ (-1 <= r <= 1)%R.
Proof.
  assert (Hnodup : NoDup (columns (rename (column_mapper "Item_MRP" "Item_Outlet_Sales"
                                             "Item_Type") sample_csv))).
  { cbn. repeat constructor; cbn; intuition discriminate. }
  destruct (correlation_of_cleaned double_mean sample_csv "Item_MRP" "Item_Outlet_Sales"
              "Item_Type" init _ _ Hnodup eq_refl)
    as (cleaned & prices & sales & Hdf & Hp & Hs & _ & _ & _ & _ & _ & Hexact).
  cbn in Hdf. injection Hdf as <-.
  cbn in Hp, Hs. injection Hp as Hp. injection Hs as Hs.
  destruct prices as [| p1 [| p2 [| p3 [| ? ?]]]]; try discriminate Hp.
  destruct sales as [| s1 [| s2 [| s3 [| ? ?]]]]; try discriminate Hs.
  cbn in Hp, Hs.
  injection Hp as <- <- <-. injection Hs as <- <- <-.
  destruct Hexact as [_ Hfin]; [vm_compute; reflexivity | vm_compute; reflexivity |].
  destruct Hfin as [Hcorr Hb].
  - cbn. lia.
  - vm_compute. discriminate.
  - vm_compute. discriminate.
  - exists (pearson [10; 20; 12] [5; 7; 6]). repeat split; tauto.
Defined.

(** C8, as stated, fails on a constant column whose mean is not computed
    exactly.  With every price at 0.1 the price column has zero variance, but
    the mean computed in double precision is 0.10000000000000002, the
    deviations are not zero, and the correlation returned is the number 0,
    not [NaN]. *)
Lemma constant_price_correlation :
  exists cleaned prices,
    df tenths_loaded = Some cleaned
    /\ len cleaned = 3%nat
    /\ numeric_column "price" cleaned = Return (map Fin prices)
    /\ prices = [tenth; tenth; tenth]
    /\ variance prices == 0
    /\ Qred (double_mean prices) = (7205759403792795 # 72057594037927936)
    /\ ~ double_mean prices == Qmean prices
    /\ get_correlation double_mean tenths_loaded = Return (Some (RFin 0))
    /\ get_correlation double_mean tenths_loaded <> Return (Some RNaN).
Proof.
  destruct (correlation_of_loaded double_mean tenths_csv "Item_MRP" "Item_Outlet_Sales"
              "Item_Type" init _ _ eq_refl)
    as (cleaned & prices & sales & Hdf & Hp & Hs & _ & _ & Hcorr).
  vm_compute in Hdf. injection Hdf as <-.
  vm_compute in Hp, Hs. injection Hp as Hp. injection Hs as Hs.
  destruct prices as [| p1 [| p2 [| p3 [| ? ?]]]]; try discriminate Hp.
  destruct sales as [| s1 [| s2 [| s3 [| ? ?]]]]; try discriminate Hs.
  injection Hp as <- <- <-. injection Hs as <- <- <-.
  assert (Hzero : corrcoef double_mean [tenth; tenth; tenth] [5; 7; 6] = RFin 0).
  { apply corrcoef_no_covariance.
    - reflexivity.
    - cbn. lia.
    - vm_compute. discriminate.
    - vm_compute. discriminate.
    - vm_compute. reflexivity. }
  assert (Hget : get_correlation double_mean tenths_loaded
                 = Return (Some (corrcoef double_mean [tenth; tenth; tenth] [5; 7; 6])))
    by exact Hcorr.
  eexists. exists [tenth; tenth; tenth].
  split; [reflexivity |]. split; [reflexivity |]. split; [reflexivity |].
  split; [reflexivity |].
  split; [vm_compute; reflexivity |].
  split; [vm_compute; reflexivity |].
  split; [vm_compute; discriminate |].
  rewrite Hget, Hzero. split; [reflexivity | discriminate].
Qed.

(** * Further properties *)

(** The labels of a given table are distinct. *)
Ltac labels_distinct := cbn; repeat constructor; cbn; intuition discriminate.

(** ** The loader: which rows are kept *)

Lemma cell_of_columns (d d' : DataFrame) (label : string) (row : list cell) :
  columns d = columns d' -> cell_of d label row = cell_of d' label row.
Proof. unfold cell_of. now intros ->. Qed.

Lemma valid_row_columns (d d' : DataFrame) (row : list cell) :
  columns d = columns d' -> valid_row d row = valid_row d' row.
Proof.
  intro H. unfold valid_row, gt_zero.
  now rewrite !(cell_of_columns d d' _ row H).
Qed.

Lemma filter_twice {A : Type} (f g : A -> bool) (l : list A) :
  (forall x, g x = true -> f x = true) ->
  filter g (filter f l) = filter g l.
Proof.
  intro H. induction l as [| a l IH]; cbn; [reflexivity |].
  destruct (f a) eqn:Ef; cbn.
  - destruct (g a); now rewrite IH.
  - destruct (g a) eqn:Eg; [| exact IH].
    apply H in Eg. congruence.
Qed.

Lemma valid_row_complete (d : DataFrame) (row : list cell) :
  valid_row d row = true -> complete_row d row = true.
Proof.
  unfold valid_row, complete_row, gt_zero. intro H.
  apply andb_true_iff in H as [Hp Hs].
  destruct (cell_of d "price" row) as [[p |] | t]; try discriminate.
  destruct (cell_of d "sales" row) as [[s |] | t]; try discriminate.
  reflexivity.
Qed.

(** The table [dropna] returns when both labels are columns. *)
Lemma dropna_price_sales (d present : DataFrame) :
  dropna ["price"; "sales"] d = Return present ->
  present = select_rows (complete_row d) d.
Proof.
  unfold dropna. destruct (missing_labels _ d); [| discriminate].
  intro H. injection H as <-. unfold select_rows. f_equal.
  apply filter_ext. intro row. unfold complete_row. cbn.
  now rewrite andb_true_r.
Qed.

(** The stored table of a successful load, in terms of the source. *)
Lemma load_data_stores csv price_col sales_col category_col self self' report :
  load_data csv price_col sales_col category_col self = (self', Return report) ->
  let renamed := rename (column_mapper price_col sales_col category_col) csv in
  self' = set_df self (select_rows (valid_row renamed) renamed)
  /\ cleaned_size report = len (select_rows (valid_row renamed) renamed)
  /\ original_size report = len csv
  /\ removed_records report
     = (Z.of_nat (len csv) - Z.of_nat (cleaned_size report))%Z
  /\ removal_pct report
     = if (0 <? len csv)%nat
       then inject_Z (removed_records report) / inject_Z (Z.of_nat (len csv)) * 100
       else 0.
Proof.
  intro H.
  apply load_data_returns in H as (present & Hdrop & Hself & Ho & Hc & Hr & Hpct).
  cbv zeta in *.
  apply dropna_price_sales in Hdrop. set (renamed := rename _ csv) in *.
  assert (E : select_rows (fun row => gt_zero present "price" row
                                      && gt_zero present "sales" row) present
              = select_rows (valid_row renamed) renamed).
  { subst present. unfold select_rows. cbn [columns rows]. f_equal.
    rewrite (filter_ext _ (valid_row renamed)).
    - apply filter_twice. apply valid_row_complete.
    - intro row. now apply valid_row_columns. }
  rewrite E in *. repeat split; try assumption.
  now rewrite Hc.
Qed.

(** X1.  A successful load stores exactly the rows of the source whose price
    and sales are present and positive, in their original order and with
    their cells unchanged, under the renamed labels; [cleaned_size] is their
    number.  Column labels are taken to be distinct after the renaming. *)
Theorem load_data_keeps_valid_rows csv price_col sales_col category_col
    self self' report :
  NoDup (columns (rename (column_mapper price_col sales_col category_col) csv)) ->
  load_data csv price_col sales_col category_col self = (self', Return report) ->
  let renamed := rename (column_mapper price_col sales_col category_col) csv in
  df self' = Some {| columns := columns renamed;
                     rows := filter (valid_row renamed) (rows csv) |}
  /\ cleaned_size report = count (valid_row renamed) (rows csv).
Proof.
  intros _ H. apply load_data_stores in H as (Hs & Hc & _). cbv zeta in *.
  split; [now rewrite Hs | exact Hc].
Qed.

Lemma load_data_keeps_valid_rows_witness :
  df sample_loaded
  = Some {| columns := ["category"; "price"; "sales"];
            rows := [ [Text "Dairy"; Number (Fin 10); Number (Fin 5)];
                      [Text "Snacks"; Number (Fin 20); Number (Fin 7)];
                      [Text "Dairy"; Number (Fin 12); Number (Fin 6)] ] |}.
Proof.
  refine (proj1 (load_data_keeps_valid_rows sample_csv "Item_MRP" "Item_Outlet_Sales"
                   "Item_Type" init _ _ _ eq_refl)).
  labels_distinct.
Defined.

(** ** The loader: the report *)

Lemma inject_nat_nonneg (n : nat) : 0 <= inject_Z (Z.of_nat n).
Proof.
  replace 0 with (inject_Z 0) by reflexivity. rewrite <- Zle_Qle. lia.
Qed.

(** X2.  In the report of a successful load the cleaned size is at most the
    original size, the removal percentage lies between 0 and 100, and it is
    the share of removed records: [removal_pct * original_size =
    removed_records * 100].  Column labels are taken to be distinct after the
    renaming. *)
Theorem load_report_bounds csv price_col sales_col category_col self self' report :
  NoDup (columns (rename (column_mapper price_col sales_col category_col) csv)) ->
  load_data csv price_col sales_col category_col self = (self', Return report) ->
  (cleaned_size report <= original_size report)%nat
  /\ 0 <= removal_pct report <= 100
  /\ removal_pct report * inject_Z (Z.of_nat (original_size report))
     == inject_Z (removed_records report) * 100.
Proof.
  intros _ H. apply load_data_stores in H as (_ & Hc & Ho & Hr & Hpct).
  cbv zeta in *.
  assert (Hle : (cleaned_size report <= len csv)%nat).
  { rewrite Hc. apply filter_length_bound. }
  rewrite Ho. split; [exact Hle |].
  rewrite Hpct, Hr.
  destruct (Nat.ltb_spec 0 (len csv)) as [Hpos | Hzero].
  - set (n := inject_Z (Z.of_nat (len csv))).
    set (r := inject_Z (Z.of_nat (len csv) - Z.of_nat (cleaned_size report))).
    assert (Hn : 0 < n).
    { unfold n. replace 0 with (inject_Z 0) by reflexivity. rewrite <- Zlt_Qlt. lia. }
    assert (Hr0 : 0 <= r).
    { unfold r. replace 0 with (inject_Z 0) by reflexivity. rewrite <- Zle_Qle. lia. }
    assert (Hrn : r <= n).
    { unfold r, n. rewrite <- Zle_Qle. lia. }
    assert (Hq0 : 0 <= r / n).
    { apply Qle_shift_div_l; [exact Hn | Lqa.lra]. }
    assert (Hq1 : r / n <= 1).
    { apply Qle_shift_div_r; [exact Hn | Lqa.lra]. }
    repeat split; try Lqa.lra.
    field; intro E; rewrite E in Hn; now apply Qlt_irrefl in Hn.
  - assert (E : len csv = 0%nat) by lia.
    assert (Ec : cleaned_size report = 0%nat) by lia.
    rewrite E, Ec. cbn. repeat split; Lqa.lra.
Qed.

Lemma load_report_bounds_witness :
  exists report,
    snd (load_data sample_csv "Item_MRP" "Item_Outlet_Sales" "Item_Type" init)
    = Return report
    /\ (cleaned_size report <= original_size report)%nat
    /\ 0 <= removal_pct report <= 100
    /\ removal_pct report == 40.
Proof.
  eexists. split; [reflexivity |].
  destruct (load_report_bounds sample_csv "Item_MRP" "Item_Outlet_Sales" "Item_Type"
              init _ _ ltac:(labels_distinct) eq_refl) as (H1 & H2 & _).
  split; [exact H1 |]. split; [exact H2 |]. reflexivity.
Defined.

(** ** The loader: when it succeeds *)

Lemma to_numeric_text (cells : list cell) :
  existsb cell_is_text cells = true -> to_numeric cells = Raise TypeError.
Proof.
  induction cells as [| [x | t] cells IH]; cbn; intro H; try discriminate.
  - now rewrite (IH H).
  - reflexivity.
Qed.

Lemma to_numeric_numbers_only (cells : list cell) :
  existsb cell_is_text cells = false -> exists xs, to_numeric cells = Return xs.
Proof.
  induction cells as [| [x | t] cells IH]; cbn; intro H; try discriminate.
  - now exists [].
  - destruct (IH H) as (xs & ->). now exists (x :: xs).
Qed.

Lemma existsb_filter {A : Type} (f g : A -> bool) (l : list A) :
  existsb g (filter f l) = existsb (fun x => f x && g x) l.
Proof.
  induction l as [| a l IH]; cbn; [reflexivity |].
  destruct (f a); cbn; now rewrite IH.
Qed.

Lemma existsb_either {A : Type} (f g : A -> bool) (l : list A) :
  existsb (fun x => f x || g x) l = existsb f l || existsb g l.
Proof.
  induction l as [| a l IH]; cbn; [reflexivity |].
  rewrite IH. destruct (f a), (g a), (existsb f l); reflexivity.
Qed.

(** A test on a column is a test on the rows. *)
Lemma existsb_mapped {B C : Type} (test : C -> bool) (column : B -> C)
    (table : list B) :
  existsb (fun row => test (column row)) table = existsb test (map column table).
Proof.
  induction table as [| row table IH]; cbn; [| rewrite IH]; reflexivity.
Qed.

Lemma dropna_when_present (d : DataFrame) :
  missing_labels ["price"; "sales"] d = [] ->
  dropna ["price"; "sales"] d = Return (select_rows (complete_row d) d)
  /\ has_column "price" d = true
  /\ has_column "sales" d = true.
Proof.
  intro Hm. unfold dropna. rewrite Hm. split.
  - unfold select_rows. do 2 f_equal. apply filter_ext. intro row.
    unfold complete_row. cbn. now rewrite andb_true_r.
  - apply missing_labels_nil in Hm.
    inversion Hm as [| ? ? Hp Hrest]; subst.
    inversion Hrest as [| ? ? Hs _]; subst. now split.
Qed.

(** The two numeric reads of the mask, on the rows [dropna] kept. *)
Lemma mask_outcome (d : DataFrame) :
  has_column "price" d = true ->
  has_column "sales" d = true ->
  let present := select_rows (complete_row d) d in
  (existsb (fun row => complete_row d row && text_row d row) (rows d) = true ->
   (_ <- numeric_column "price" present ;; numeric_column "sales" present)
   = Raise TypeError)
  /\ (existsb (fun row => complete_row d row && text_row d row) (rows d) = false ->
      exists xs, (_ <- numeric_column "price" present ;; numeric_column "sales" present)
                 = Return xs).
Proof.
  intros Hp Hs present.
  assert (Hp' : has_column "price" present = true) by exact Hp.
  assert (Hs' : has_column "sales" present = true) by exact Hs.
  unfold numeric_column.
  rewrite (get_column_cells _ _ Hp'), (get_column_cells _ _ Hs'). cbn [bind].
  rewrite <- existsb_filter.
  change (filter (complete_row d) (rows d)) with (rows present).
  replace (existsb (text_row d) (rows present))
    with (existsb cell_is_text (map (cell_of present "price") (rows present))
          || existsb cell_is_text (map (cell_of present "sales") (rows present))).
  2:{ unfold text_row. rewrite existsb_either, <- !existsb_mapped. reflexivity. }
  destruct (existsb cell_is_text (map (cell_of present "price") (rows present))) eqn:Ep.
  - cbn [orb]. split; [| discriminate]. intros _. now rewrite (to_numeric_text _ Ep).
  - destruct (to_numeric_numbers_only _ Ep) as (ps & ->). cbn [orb bind]. split.
    + intro Es. now apply to_numeric_text.
    + intro Es. now apply to_numeric_numbers_only.
Qed.

(** With both columns present and no text among the complete rows, the load
    succeeds and stores the valid rows. *)
Lemma load_data_succeeds csv price_col sales_col category_col self :
  let renamed := rename (column_mapper price_col sales_col category_col) csv in
  missing_labels ["price"; "sales"] renamed = [] ->
  existsb (fun row => complete_row renamed row && text_row renamed row) (rows csv)
  = false ->
  exists report,
    load_data csv price_col sales_col category_col self
    = (set_df self (select_rows (valid_row renamed) renamed), Return report).
Proof.
  intros renamed Hm H.
  destruct (dropna_when_present renamed Hm) as (Hdrop & Hp & Hs).
  destruct (mask_outcome renamed Hp Hs) as [_ Hnum]. cbv zeta in *.
  destruct (Hnum H) as (xs & Hxs).
  assert (Hload : exists st report,
             load_data csv price_col sales_col category_col self
             = (st, Return report)).
  { unfold load_data. fold renamed. rewrite Hdrop, Hxs. eexists. eexists. reflexivity. }
  destruct Hload as (st & report & Hload). exists report.
  pose proof (load_data_stores _ _ _ _ _ _ _ Hload) as (Hst & _).
  cbv zeta in Hst. fold renamed in Hst. now rewrite Hload, Hst.
Qed.

(** X3.  When the renamed table has the columns ['price'] and ['sales'], the
    load succeeds unless some row with both values present holds text under
    one of them; in that case it raises [TypeError] and leaves in [self.df]
    the table with the incomplete rows dropped.  Column labels are taken to be
    distinct after the renaming. *)
Theorem load_data_outcome csv price_col sales_col category_col self :
  let renamed := rename (column_mapper price_col sales_col category_col) csv in
  NoDup (columns renamed) ->
  missing_labels ["price"; "sales"] renamed = [] ->
  (existsb (fun row => complete_row renamed row && text_row renamed row) (rows csv)
   = true ->
   load_data csv price_col sales_col category_col self
   = (set_df self (select_rows (complete_row renamed) renamed), Raise TypeError))
  /\ (existsb (fun row => complete_row renamed row && text_row renamed row) (rows csv)
      = false ->
      exists report,
        load_data csv price_col sales_col category_col self
        = (set_df self (select_rows (valid_row renamed) renamed), Return report)).
Proof.
  intros renamed _ Hm.
  destruct (dropna_when_present renamed Hm) as (Hdrop & Hp & Hs).
  destruct (mask_outcome renamed Hp Hs) as [Htext _]. cbv zeta in *.
  split; intro H.
  - unfold load_data. fold renamed. rewrite Hdrop, (Htext H). reflexivity.
  - now apply load_data_succeeds.
Qed.

(** A table whose price column holds text. *)
Lemma load_data_outcome_witness :
  (exists report,
      load_data sample_csv "Item_MRP" "Item_Outlet_Sales" "Item_Type" init
      = (sample_loaded, Return report))
  /\ snd (load_data {| columns := ["price"; "sales"];
                       rows := [ [Text "ten"; Number (Fin 5)] ] |}
            "price" "sales" "category" init)
     = Raise TypeError.
Proof.
  split.
  - destruct (load_data_outcome sample_csv "Item_MRP" "Item_Outlet_Sales" "Item_Type"
                init ltac:(labels_distinct) eq_refl) as [_ H].
    destruct (H eq_refl) as (report & Hr). exists report.
    rewrite Hr. reflexivity.
  - destruct (load_data_outcome {| columns := ["price"; "sales"];
                                   rows := [ [Text "ten"; Number (Fin 5)] ] |}
                "price" "sales" "category" init ltac:(labels_distinct) eq_refl)
      as [H _].
    now rewrite (H eq_refl).
Defined.

(** ** The loader: loading again *)

Lemma rename_canonical (d : DataFrame) :
  rename (column_mapper "price" "sales" "category") d = d.
Proof.
  destruct d as [cols rs]. unfold rename. cbn [columns rows]. f_equal.
  rewrite <- (map_id cols) at 2. apply map_ext. intro l.
  change (column_mapper "price" "sales" "category")
    with [("price", "price"); ("sales", "sales"); ("category", "category")].
  cbn [dict_get].
  destruct (String.eqb_spec "price" l) as [<- | _]; [reflexivity |].
  destruct (String.eqb_spec "sales" l) as [<- | _]; [reflexivity |].
  destruct (String.eqb_spec "category" l) as [<- | _]; reflexivity.
Qed.

Lemma existsb_nowhere {A : Type} (f : A -> bool) (l : list A) :
  (forall x, In x l -> f x = false) -> existsb f l = false.
Proof.
  induction l as [| a l IH]; cbn; intro H; [reflexivity |].
  rewrite (H a (or_introl eq_refl)). apply IH. intros x Hx. apply H. now right.
Qed.

Lemma valid_row_no_text (d : DataFrame) (row : list cell) :
  valid_row d row = true -> text_row d row = false.
Proof.
  unfold valid_row, text_row, gt_zero. intro H.
  apply andb_true_iff in H as [Hp Hs].
  destruct (cell_of d "price" row) as [x | t]; [| discriminate].
  destruct (cell_of d "sales" row) as [y | t]; [| discriminate].
  reflexivity.
Qed.

(** The table a successful load stores passes the cleaner unchanged. *)
Lemma cleaned_is_clean (d : DataFrame) :
  let cleaned := select_rows (valid_row d) d in
  select_rows (valid_row cleaned) cleaned = cleaned
  /\ existsb (fun row => complete_row cleaned row && text_row cleaned row)
             (rows cleaned) = false.
Proof.
  cbn. split.
  - unfold select_rows. cbn [columns rows]. f_equal.
    rewrite (filter_ext _ (valid_row d)).
    + apply filter_twice. auto.
    + intro row. now apply valid_row_columns.
  - apply existsb_nowhere. intros row Hin.
    apply filter_In in Hin as [_ Hv].
    rewrite (valid_row_no_text _ row); [apply andb_false_r |].
    now rewrite (valid_row_columns _ d).
Qed.

(** X4.  Loading the table that a successful load stored, under the
    canonical column names, succeeds, removes nothing and stores the same
    table again.  Column labels are taken to be distinct after the first
    renaming. *)
Theorem load_data_again csv price_col sales_col category_col self self' report cleaned :
  NoDup (columns (rename (column_mapper price_col sales_col category_col) csv)) ->
  load_data csv price_col sales_col category_col self = (self', Return report) ->
  df self' = Some cleaned ->
  exists report',
    load_data cleaned "price" "sales" "category" self' = (self', Return report')
    /\ original_size report' = cleaned_size report
    /\ cleaned_size report' = cleaned_size report
    /\ removed_records report' = 0%Z
    /\ removal_pct report' == 0.
Proof.
  intros _ Hload Hdf.
  pose proof (load_data_returns _ _ _ _ _ _ _ Hload) as (present & Hdrop & _).
  apply dropna_returns in Hdrop as (_ & _ & Hhas).
  apply load_data_stores in Hload as (Hs & Hc & _). cbv zeta in *.
  set (renamed := rename _ csv) in *.
  rewrite Hs in Hdf. cbn in Hdf. injection Hdf as <-.
  set (cleaned := {| columns := columns renamed;
                     rows := filter (valid_row renamed) (rows renamed) |}) in *.
  destruct (cleaned_is_clean renamed) as [Hsame Hnotext]. cbv zeta in *.
  change (select_rows (valid_row renamed) renamed) with cleaned in *.
  assert (Hm : missing_labels ["price"; "sales"]
                 (rename (column_mapper "price" "sales" "category") cleaned) = []).
  { rewrite rename_canonical.
    inversion Hhas as [| ? ? Hp Hrest]; subst.
    inversion Hrest as [| ? ? Hsl _]; subst.
    unfold missing_labels. cbn [filter].
    change (has_column "price" cleaned) with (has_column "price" renamed).
    change (has_column "sales" cleaned) with (has_column "sales" renamed).
    now rewrite Hp, Hsl. }
  destruct (load_data_succeeds cleaned "price" "sales" "category" self' Hm)
    as (report' & Hagain).
  { now rewrite rename_canonical. }
  rewrite rename_canonical, Hsame in Hagain.
  assert (Hst : set_df self' cleaned = self') by now rewrite Hs.
  rewrite Hst in Hagain. exists report'. split; [exact Hagain |].
  apply load_data_stores in Hagain as (_ & Hc' & Ho' & Hr' & Hp').
  cbv zeta in *. rewrite rename_canonical, Hsame in Hc'.
  rewrite Hc. change (len (select_rows (valid_row renamed) renamed)) with (len cleaned).
  assert (Hr0 : removed_records report' = 0%Z) by (rewrite Hr', Hc'; lia).
  repeat split; try assumption.
  rewrite Hp', Hr0. destruct (0 <? len cleaned)%nat; [| reflexivity].
  unfold Qdiv. now rewrite !Qmult_0_l.
Qed.

Lemma load_data_again_witness :
  exists report',
    load_data {| columns := ["category"; "price"; "sales"];
                 rows := [ [Text "Dairy"; Number (Fin 10); Number (Fin 5)];
                           [Text "Snacks"; Number (Fin 20); Number (Fin 7)];
                           [Text "Dairy"; Number (Fin 12); Number (Fin 6)] ] |}
      "price" "sales" "category" sample_loaded
    = (sample_loaded, Return report')
    /\ original_size report' = 3%nat
    /\ removed_records report' = 0%Z.
Proof.
  destruct (load_data_again sample_csv "Item_MRP" "Item_Outlet_Sales" "Item_Type"
              init _ _ _ ltac:(labels_distinct) eq_refl eq_refl)
    as (report' & H & Ho & _ & Hr & _).
  exists report'. split; [exact H |]. split; [exact Ho | exact Hr].
Defined.

(** ** The loader does not reset the results *)

(** X5.  Whatever its outcome, [load_data] leaves the result table as it
    was: after loading another file the simulation and the summary still
    answer from the earlier analysis. *)
Theorem load_data_keeps_results csv price_col sales_col category_col self :
  let self' := fst (load_data csv price_col sales_col category_col self) in
  elasticity_results self' = elasticity_results self
  /\ (forall category_name price_change_pct,
         simulate_price_change category_name price_change_pct self'
         = simulate_price_change category_name price_change_pct self)
  /\ get_summary_stats self' = get_summary_stats self.
Proof.
  cbv zeta.
  assert (H : elasticity_results
                (fst (load_data csv price_col sales_col category_col self))
              = elasticity_results self).
  { unfold load_data. destruct (dropna _ _) as [present | e]; [| reflexivity].
    destruct (bind _ _); reflexivity. }
  split; [exact H |].
  unfold simulate_price_change, get_summary_stats. rewrite H. now split.
Qed.

(** ** The estimator: the rows the loop collects *)

Lemma fit_categories_rows OLS_fit d (min_observations : Z) (categories : list cell) :
  forall acc l,
    fit_categories OLS_fit d min_observations categories acc = Return l ->
    exists l',
      l = (acc ++ l')%list
      /\ Forall (fitted_row OLS_fit d min_observations) l'
      /\ map category l' = filter (is_fitted OLS_fit d min_observations) categories.
Proof.
  induction categories as [| c cats IH]; intros acc l H; cbn [fit_categories] in H.
  - injection H as <-. exists []. rewrite app_nil_r. repeat split. constructor.
  - change (select_rows (fun row => cell_eqb (cell_of d "category" row) c) d)
      with (group d c) in H.
    cbn [filter]. unfold is_fitted at 1.
    destruct (Z.ltb_spec (Z.of_nat (len (group d c))) min_observations) as [Hlt | Hge].
    { now apply IH. }
    destruct (numeric_column "price" (group d c)) as [prices | e] eqn:Ep;
      [| discriminate].
    destruct (numeric_column "sales" (group d c)) as [sales | e] eqn:Es;
      [| discriminate].
    cbn [bind] in H.
    destruct (OLS_fit prices sales) as [model |] eqn:Ef; [| now apply IH].
    apply IH in H as (l' & -> & Hrows & Hcats).
    eexists (_ :: l'). rewrite <- app_assoc. split; [reflexivity |]. split.
    + constructor; [| exact Hrows].
      unfold fitted_row. cbn [category num_products]. split; [exact Hge |].
      split; [reflexivity |].
      exists prices, sales, model. repeat split; assumption.
    + cbn [map category]. now rewrite Hcats.
Qed.

(** What a successful run returns, row by row. *)
Lemma calculate_elasticity_rows OLS_fit tie k self self' t :
  calculate_elasticity OLS_fit tie k self = (self', Return t) ->
  exists d cats fits l,
    df self = Some d
    /\ get_column "category" d = Return cats
    /\ Forall (fitted_row OLS_fit d k) fits
    /\ map category fits = filter (is_fitted OLS_fit d k) (unique cats)
    /\ fits <> []
    /\ Permutation fits (map estimate l)
    /\ l = map enrich (sort_by_elasticity tie fits)
    /\ t = Table l
    /\ self' = set_elasticity_results self t.
Proof.
  intro H.
  apply calculate_elasticity_returns in H as (d & fits & Hd & Hf & Hne & Ht & Hs).
  unfold fitted in Hf.
  destruct (get_column "category" d) as [cats | e] eqn:Ec; [| discriminate].
  cbn [bind] in Hf.
  apply fit_categories_rows in Hf as (l' & -> & Hrows & Hcats). cbn [app] in *.
  exists d, cats, l', (map enrich (sort_by_elasticity tie l')).
  repeat split; try assumption.
  rewrite map_map. cbn [estimate enrich]. rewrite map_id.
  symmetry. apply sort_by_elasticity_permutation.
Qed.

Lemma unique_from_subset (seen cells : list cell) (c : cell) :
  In c (unique_from seen cells) -> In c cells.
Proof.
  revert seen. induction cells as [| x cells IH]; intros seen H; cbn in *; [exact H |].
  destruct (existsb (cell_same x) seen).
  - right. now apply (IH seen).
  - destruct H as [-> | H]; [now left | right; now apply (IH (x :: seen))].
Qed.

(** X6.  Every row of a returned result table stands for a category label
    that occurs in the category column; its [num_products] is the number of
    loaded rows with that label and is at least [min_observations]; the table
    is not empty. *)
Theorem result_rows_meet_minimum OLS_fit tie (min_observations : Z)
    (self self' : PriceElasticityModel) (t : ResultFrame) :
  calculate_elasticity OLS_fit tie min_observations self = (self', Return t) ->
  exists d cats l,
    df self = Some d
    /\ get_column "category" d = Return cats
    /\ t = Table l
    /\ l <> []
    /\ Forall (fun r =>
                 In (category (estimate r)) cats
                 /\ num_products (estimate r) = len (group d (category (estimate r)))
                 /\ (min_observations <= Z.of_nat (num_products (estimate r)))%Z) l.
Proof.
  intro H.
  apply calculate_elasticity_rows in H
    as (d & cats & fits & l & Hd & Hc & Hrows & Hcats & Hne & Hperm & Hl & Ht & _).
  exists d, cats, l. repeat (split; [assumption |]). split.
  - intros ->. apply Permutation_sym, Permutation_nil in Hperm. contradiction.
  - assert (Hfits : Forall (fun e => In (category e) cats
                                     /\ num_products e = len (group d (category e))
                                     /\ (min_observations <= Z.of_nat (num_products e))%Z)
                           fits).
    { apply Forall_forall. intros e He.
      assert (Hin : In (category e) (map category fits)) by now apply in_map.
      rewrite Hcats in Hin. apply filter_In in Hin as [Hin _].
      apply unique_from_subset in Hin.
      rewrite Forall_forall in Hrows. destruct (Hrows e He) as (Hk & Hn & _).
      rewrite Hn. auto. }
    apply (Permutation_Forall Hperm) in Hfits.
    now rewrite Forall_map in Hfits.
Qed.

Lemma result_rows_meet_minimum_witness :
  exists l,
    snd (calculate_elasticity (constant_fit 0.5) keep_order 2 sample_loaded)
    = Return (Table l)
    /\ Forall (fun r => (2 <= Z.of_nat (num_products (estimate r)))%Z) l
    /\ List.length l = 1%nat.
Proof.
  destruct (result_rows_meet_minimum (constant_fit 0.5) keep_order 2 sample_loaded
              _ _ eq_refl)
    as (d & cats & l & _ & _ & Ht & _ & Hrows).
  exists l. injection Ht as <-. split; [reflexivity |]. split; [| reflexivity].
  eapply Forall_impl; [| exact Hrows]. cbn beta. tauto.
Defined.

(** ** The estimator: one row per category *)

Lemma cell_same_sym (a b : cell) : cell_same a b = true -> cell_same b a = true.
Proof.
  destruct a as [[x |] | s], b as [[y |] | t]; cbn; try discriminate; trivial.
  - intro H. apply Qeq_bool_iff in H. apply Qeq_bool_iff. now symmetry.
  - intro H. apply String.eqb_eq in H. subst. apply String.eqb_refl.
Qed.

Lemma cell_same_trans (a b c : cell) :
  cell_same a b = true -> cell_same b c = true -> cell_same a c = true.
Proof.
  destruct a as [[x |] | s], b as [[y |] | t], c as [[z |] | u]; cbn;
    try discriminate; trivial.
  - intros H1 H2. apply Qeq_bool_iff in H1, H2. apply Qeq_bool_iff.
    now rewrite H1.
  - intros H1 H2. apply String.eqb_eq in H1, H2. subst. apply String.eqb_refl.
Qed.

Lemma unique_from_unseen (seen cells : list cell) (y : cell) :
  In y (unique_from seen cells) -> existsb (cell_same y) seen = false.
Proof.
  revert seen. induction cells as [| x cells IH]; intros seen H; cbn in H; [destruct H |].
  destruct (existsb (cell_same x) seen) eqn:E.
  - now apply IH.
  - destruct H as [<- | H]; [exact E |].
    apply IH in H. cbn in H. now apply orb_false_iff in H.
Qed.

(** No label comes twice out of [unique]. *)
Lemma unique_from_once (seen cells : list cell) (c : cell) :
  (List.length (filter (cell_same c) (unique_from seen cells)) <= 1)%nat.
Proof.
  revert seen. induction cells as [| x cells IH]; intro seen; cbn; [lia |].
  destruct (existsb (cell_same x) seen); [apply IH |].
  cbn [filter]. destruct (cell_same c x) eqn:Ex; [| apply IH].
  rewrite filter_nothing; [cbn; lia |].
  intros y Hy. apply unique_from_unseen in Hy. cbn in Hy.
  apply orb_false_iff in Hy as [Hyx _].
  destruct (cell_same c y) eqn:Ey; [| reflexivity].
  apply cell_same_sym in Ey.
  now rewrite (cell_same_trans _ _ _ Ey Ex) in Hyx.
Qed.

Lemma filter_on_map {A B : Type} (f : A -> B) (p : B -> bool) (l : list A) :
  filter p (map f l) = map f (filter (fun x => p (f x)) l).
Proof.
  induction l as [| a l IH]; cbn; [reflexivity |].
  destruct (p (f a)); cbn; now rewrite IH.
Qed.

Lemma filter_filter_length {A : Type} (p q : A -> bool) (l : list A) :
  (List.length (filter p (filter q l)) <= List.length (filter p l))%nat.
Proof.
  induction l as [| a l IH]; cbn; [lia |].
  destruct (q a); cbn; destruct (p a); cbn; lia.
Qed.

Lemma filter_permutation {A : Type} (p : A -> bool) (l l' : list A) :
  Permutation l l' -> Permutation (filter p l) (filter p l').
Proof.
  induction 1 as [| x l l' _ IH | x y l | l l' l'' _ IH1 _ IH2]; cbn.
  - constructor.
  - destruct (p x); [now constructor | exact IH].
  - destruct (p x), (p y); try reflexivity. apply perm_swap.
  - now transitivity (filter p l').
Qed.

(** In a returned table every category label has at most one row. *)
Lemma one_row_per_category OLS_fit tie k self self' (l : list CategoryResult) :
  calculate_elasticity OLS_fit tie k self = (self', Return (Table l)) ->
  forall c, (rows_of_category c l <= 1)%nat.
Proof.
  intros H c.
  apply calculate_elasticity_rows in H
    as (d & cats & fits & l0 & _ & _ & _ & Hcats & _ & Hperm & _ & Ht & _).
  injection Ht as ->.
  unfold rows_of_category, count.
  replace (List.length (filter (fun r => cell_same c (category (estimate r))) l0))
    with (List.length (filter (cell_same c) (map category fits))).
  - rewrite Hcats. etransitivity; [apply filter_filter_length |].
    apply unique_from_once.
  - rewrite filter_on_map, length_map.
    apply (filter_permutation (fun e => cell_same c (category e))) in Hperm.
    rewrite (Permutation_length Hperm).
    now rewrite filter_on_map, length_map.
Qed.

Lemma cell_same_refl (c : cell) : cell_same c c = true.
Proof.
  destruct c as [[q |] | s]; cbn; trivial.
  - now apply Qeq_bool_iff.
  - apply String.eqb_refl.
Qed.

Lemma filter_swap {A : Type} (p q : A -> bool) (l : list A) :
  filter p (filter q l) = filter q (filter p l).
Proof.
  induction l as [| a l IH]; cbn; [reflexivity |].
  destruct (q a) eqn:Eq, (p a) eqn:Ep; cbn; rewrite ?Eq, ?Ep, IH; reflexivity.
Qed.

Lemma filter_single {A : Type} (p : A -> bool) (l : list A) (x : A) :
  In x l -> p x = true -> (List.length (filter p l) <= 1)%nat -> filter p l = [x].
Proof.
  intros Hin Hp Hlen.
  assert (Hx : In x (filter p l)) by (apply filter_In; now split).
  destruct (filter p l) as [| y [| z rest]]; cbn in *.
  - destruct Hx.
  - destruct Hx as [-> | []]. reflexivity.
  - lia.
Qed.

(** X7.  The category is a key of a returned result table: no category label
    has more than one row, and a label of the category column has a row
    exactly when the loop fits it, that is when its group has at least
    [min_observations] rows with numeric price and sales and the regression
    does not raise. *)
Theorem category_is_key OLS_fit tie (min_observations : Z)
    (self self' : PriceElasticityModel) (l : list CategoryResult) :
  calculate_elasticity OLS_fit tie min_observations self = (self', Return (Table l)) ->
  (forall c, (rows_of_category c l <= 1)%nat)
  /\ exists d cats,
       df self = Some d
       /\ get_column "category" d = Return cats
       /\ forall c, In c (unique cats) ->
                    rows_of_category c l
                    = if is_fitted OLS_fit d min_observations c then 1%nat else 0%nat.
Proof.
  intro H. split; [exact (one_row_per_category _ _ _ _ _ _ H) |].
  apply calculate_elasticity_rows in H
    as (d & cats & fits & l0 & Hd & Hc & _ & Hcats & _ & Hperm & _ & Ht & _).
  injection Ht as ->. exists d, cats. repeat (split; [assumption |]).
  intros c Hin. unfold rows_of_category, count.
  replace (List.length (filter (fun r => cell_same c (category (estimate r))) l0))
    with (List.length (filter (cell_same c) (map category fits))).
  - rewrite Hcats, filter_swap.
    rewrite (filter_single (cell_same c) (unique cats) c Hin (cell_same_refl c)
               (unique_from_once [] cats c)).
    cbn. now destruct (is_fitted OLS_fit d min_observations c).
  - rewrite filter_on_map, length_map.
    apply (filter_permutation (fun e => cell_same c (category e))) in Hperm.
    rewrite (Permutation_length Hperm).
    now rewrite filter_on_map, length_map.
Qed.

Lemma category_is_key_witness :
  exists l,
    calculate_elasticity (constant_fit 0.5) swap_order 2 sample_loaded
    = (set_elasticity_results sample_loaded (Table l), Return (Table l))
    /\ rows_of_category (Text "Dairy") l = 1%nat
    /\ rows_of_category (Text "Snacks") l = 0%nat
    /\ forall c, (rows_of_category c l <= 1)%nat.
Proof.
  eexists. split; [reflexivity |]. split; [reflexivity |]. split; [reflexivity |].
  exact (proj1 (category_is_key (constant_fit 0.5) swap_order 2 sample_loaded _ _
                  eq_refl)).
Defined.

(** X8.  After a successful estimation, the simulation for the category of
    any row of the table answers from that very row: it reports the row's
    elasticity, average price and total sales. *)
Theorem simulate_uses_the_row OLS_fit tie (min_observations : Z)
    (self self' : PriceElasticityModel) (l : list CategoryResult)
    (r : CategoryResult) (category_name : string) (price_change_pct : Q) :
  calculate_elasticity OLS_fit tie min_observations self = (self', Return (Table l)) ->
  In r l ->
  category (estimate r) = Text category_name ->
  exists s,
    simulate_price_change category_name price_change_pct self' = Return (Some s)
    /\ Simulation.category s = category_name
    /\ Simulation.elasticity s = elasticity (estimate r)
    /\ Simulation.current_price s = avg_price (estimate r)
    /\ Simulation.current_total_sales s = total_sales (estimate r).
Proof.
  intros H Hin Hcat.
  pose proof (one_row_per_category _ _ _ _ _ _ H (Text category_name)) as Hone.
  apply calculate_elasticity_returns in H as (_ & _ & _ & _ & _ & _ & ->).
  unfold simulate_price_change. cbn [elasticity_results set_elasticity_results].
  rewrite (filter_single (category_is category_name) l r Hin).
  - eexists. split; [reflexivity |]. repeat split.
  - unfold category_is. rewrite Hcat. cbn. apply String.eqb_refl.
  - etransitivity; [| exact Hone]. unfold rows_of_category, count.
    apply Nat.eq_le_incl. f_equal. apply filter_ext. intro x.
    unfold category_is. destruct (category (estimate x)) as [[q |] | s]; cbn; trivial.
    apply String.eqb_sym.
Qed.

Lemma simulate_uses_the_row_witness :
  exists s,
    simulate_price_change "Snacks" 0.05
      (fst (calculate_elasticity (constant_fit 0.5) swap_order 1 sample_loaded))
    = Return (Some s)
    /\ Simulation.elasticity s = 0.5
    /\ Simulation.current_price s = Fin 20.
Proof.
  destruct (simulate_uses_the_row (constant_fit 0.5) swap_order 1 sample_loaded _ _
              (enrich {| category := Text "Snacks"; elasticity := 0.5;
                         p_value := Fin 0.01; r_squared := Fin 0.9;
                         avg_price := Fin 20; median_price := Fin 20;
                         total_sales := Fin 7; num_products := 1 |})
              "Snacks" 0.05 eq_refl)
    as (s & Hs & _ & He & Hp & _).
  - cbn. left. reflexivity.
  - reflexivity.
  - exists s. split; [exact Hs |]. split; [exact He | exact Hp].
Defined.

(** ** From the cleaned table to the aggregates of a row *)

Lemma valid_rows_clean (d : DataFrame) :
  Forall (clean_row (select_rows (valid_row d) d)) (rows (select_rows (valid_row d) d)).
Proof.
  apply Forall_forall. intros row Hin. cbn in Hin.
  apply filter_In in Hin as [_ H]. apply andb_true_iff in H as [Hp Hs].
  apply gt_zero_positive in Hp as (p & Hp & Hp0).
  apply gt_zero_positive in Hs as (s & Hs & Hs0).
  exists p, s. unfold cell_of in *. cbn. auto.
Qed.

Lemma group_clean (d : DataFrame) (c : cell) :
  Forall (clean_row d) (rows d) -> Forall (clean_row (group d c)) (rows (group d c)).
Proof.
  intro H. apply Forall_forall. intros row Hin. cbn in Hin.
  apply filter_In in Hin as [Hin _].
  rewrite Forall_forall in H. exact (H row Hin).
Qed.

Lemma clean_columns_positive (d : DataFrame) (rs : list (list cell)) :
  Forall (clean_row d) rs ->
  exists prices sales,
    map (cell_of d "price") rs = map number prices
    /\ map (cell_of d "sales") rs = map number sales
    /\ List.length prices = List.length rs
    /\ List.length sales = List.length rs
    /\ Forall (fun q => 0 < q) prices
    /\ Forall (fun q => 0 < q) sales.
Proof.
  induction 1 as [| row rs (p & s & Hp & Hp0 & Hs & Hs0) _
                    (ps & ss & IHp & IHs & Lp & Ls & Pp & Ps)].
  - exists [], []. repeat split; constructor.
  - exists (p :: ps), (s :: ss). cbn. rewrite Hp, Hs, IHp, IHs, Lp, Ls.
    repeat split; now constructor.
Qed.

Lemma numeric_column_cells (label : string) (d : DataFrame) (xs : list float) :
  numeric_column label d = Return xs ->
  to_numeric (map (cell_of d label) (rows d)) = Return xs.
Proof.
  unfold numeric_column, get_column, cell_of.
  destruct (index_of label (columns d)); [trivial | discriminate].
Qed.

Lemma dropna_values_finite (qs : list Q) : dropna_values (map Fin qs) = qs.
Proof.
  induction qs as [| q qs IH]; cbn; [reflexivity | now rewrite IH].
Qed.

Lemma Qsum_positive (qs : list Q) :
  qs <> [] -> Forall (fun q => 0 < q) qs -> 0 < Qsum qs.
Proof.
  intros Hne H. induction H as [| q qs Hq Hqs IH]; [contradiction |].
  unfold Qsum in *. cbn [fold_right].
  destruct qs as [| q' qs'].
  - cbn. Lqa.lra.
  - assert (0 < fold_right Qplus 0 (q' :: qs')) by (apply IH; discriminate).
    Lqa.lra.
Qed.

Lemma Qinsert_permutation (x : Q) (l : list Q) : Permutation (Qinsert x l) (x :: l).
Proof.
  induction l as [| y l IH]; cbn; [reflexivity |].
  destruct (Qle_bool x y); [reflexivity |].
  rewrite IH. apply perm_swap.
Qed.

Lemma Qsort_permutation (l : list Q) : Permutation (Qsort l) l.
Proof.
  induction l as [| x l IH]; cbn; [reflexivity |].
  rewrite Qinsert_permutation. now constructor.
Qed.

Lemma nth_positive (l : list Q) (i : nat) :
  Forall (fun q => 0 < q) l -> (i < List.length l)%nat -> 0 < nth i l 0.
Proof.
  intros H Hi. rewrite Forall_forall in H. apply H. now apply nth_In.
Qed.

(** Mean, median and sum of a non-empty column of positive numbers. *)
Lemma reductions_positive (qs : list Q) :
  qs <> [] -> Forall (fun q => 0 < q) qs ->
  (exists a, series_mean (map Fin qs) = Fin a /\ 0 < a)
  /\ (exists m, series_median (map Fin qs) = Fin m /\ 0 < m)
  /\ (exists t, series_sum (map Fin qs) = Fin t /\ 0 < t).
Proof.
  intros Hne Hpos.
  pose proof (Qsum_positive qs Hne Hpos) as Hsum.
  unfold series_mean, series_median, series_sum. rewrite dropna_values_finite.
  destruct qs as [| q qs']; [contradiction |].
  set (qs := q :: qs') in *. repeat split.
  - eexists. split; [reflexivity |].
    apply Qlt_shift_div_l; [| Lqa.lra].
    replace 0 with (inject_Z 0) by reflexivity. rewrite <- Zlt_Qlt. cbn. lia.
  - assert (Hs : Forall (fun q => 0 < q) (Qsort qs)).
    { eapply Permutation_Forall; [symmetry; apply Qsort_permutation | exact Hpos]. }
    assert (Hn : (0 < List.length (Qsort qs))%nat).
    { rewrite (Permutation_length (Qsort_permutation qs)). cbn. lia. }
    set (s := Qsort qs) in *. set (n := List.length s) in *.
    assert (Hhalf : (n / 2 < n)%nat) by (apply Nat.div_lt; lia).
    pose proof (nth_positive s (n / 2) Hs Hhalf) as H2.
    destruct (Nat.even n).
    + eexists. split; [reflexivity |].
      assert (H1 : 0 < nth (n / 2 - 1) s 0) by (apply nth_positive; [exact Hs | lia]).
      apply Qlt_shift_div_l; Lqa.lra.
    + eexists. split; [reflexivity | exact H2].
  - eexists. split; [reflexivity | exact Hsum].
Qed.

Lemma fitted_row_positive OLS_fit d (k : Z) (e : Estimate) :
  Forall (clean_row d) (rows d) ->
  (1 <= k)%Z ->
  fitted_row OLS_fit d k e ->
  (exists a, avg_price e = Fin a /\ 0 < a)
  /\ (exists m, median_price e = Fin m /\ 0 < m)
  /\ (exists t, total_sales e = Fin t /\ 0 < t).
Proof.
  intros Hclean Hk (Hmin & _ & prices & sales & model & Hp & Hs & _ & _ & _ & _
                    & Ha & Hm & Ht).
  pose proof (group_clean d (category e) Hclean) as Hg.
  destruct (clean_columns_positive _ _ Hg) as (ps & ss & Ep & Es & Lp & Ls & Pp & Ps).
  apply numeric_column_cells in Hp, Hs.
  rewrite Ep in Hp. rewrite Es in Hs.
  rewrite to_numeric_numbers in Hp, Hs. injection Hp as <-. injection Hs as <-.
  assert (Hps : ps <> []).
  { intros ->. unfold len in Hmin. rewrite <- Lp in Hmin. cbn in Hmin. lia. }
  assert (Hss : ss <> []).
  { intros ->. unfold len in Hmin. rewrite <- Ls in Hmin. cbn in Hmin. lia. }
  destruct (reductions_positive ps Hps Pp) as (Hmean & Hmed & _).
  destruct (reductions_positive ss Hss Ps) as (_ & _ & Hsum).
  rewrite Ha, Hm, Ht. repeat split; assumption.
Qed.

(** X9.  After a successful load, an estimation with [min_observations] of
    at least 1 returns rows whose average price, median price and total sales
    are numbers above zero (never [NaN]).  Column labels are taken to be
    distinct after the renaming. *)
Theorem aggregates_positive csv price_col sales_col category_col OLS_fit tie
    (min_observations : Z) (self self1 self2 : PriceElasticityModel)
    (report : LoadReport) (l : list CategoryResult) :
  NoDup (columns (rename (column_mapper price_col sales_col category_col) csv)) ->
  load_data csv price_col sales_col category_col self = (self1, Return report) ->
  (1 <= min_observations)%Z ->
  calculate_elasticity OLS_fit tie min_observations self1 = (self2, Return (Table l)) ->
  Forall (fun r =>
            (exists a, avg_price (estimate r) = Fin a /\ 0 < a)
            /\ (exists m, median_price (estimate r) = Fin m /\ 0 < m)
            /\ (exists t, total_sales (estimate r) = Fin t /\ 0 < t)) l.
Proof.
  intros _ Hload Hk Hcalc.
  apply load_data_stores in Hload as (Hs & _). cbv zeta in Hs.
  apply calculate_elasticity_rows in Hcalc
    as (d & cats & fits & l0 & Hd & _ & Hrows & _ & _ & Hperm & _ & Ht & _).
  injection Ht as ->. rewrite Hs in Hd. cbn in Hd. injection Hd as <-.
  assert (Hfits : Forall (fun e =>
                    (exists a, avg_price e = Fin a /\ 0 < a)
                    /\ (exists m, median_price e = Fin m /\ 0 < m)
                    /\ (exists t, total_sales e = Fin t /\ 0 < t)) fits).
  { eapply Forall_impl; [| exact Hrows]. intros e He.
    eapply fitted_row_positive; [apply valid_rows_clean | exact Hk | exact He]. }
  apply (Permutation_Forall Hperm) in Hfits.
  now rewrite Forall_map in Hfits.
Qed.

Lemma aggregates_positive_witness :
  exists l,
    snd (calculate_elasticity (constant_fit 0.5) keep_order 1 sample_loaded)
    = Return (Table l)
    /\ List.length l = 2%nat
    /\ Forall (fun r =>
                 (exists a, avg_price (estimate r) = Fin a /\ 0 < a)
                 /\ (exists m, median_price (estimate r) = Fin m /\ 0 < m)
                 /\ (exists t, total_sales (estimate r) = Fin t /\ 0 < t)) l.
Proof.
  assert (Hnodup : NoDup (columns (rename (column_mapper "Item_MRP" "Item_Outlet_Sales"
                                             "Item_Type") sample_csv))).
  { cbn. repeat constructor; cbn; intuition discriminate. }
  eexists. split; [reflexivity |]. split; [reflexivity |].
  refine (aggregates_positive sample_csv "Item_MRP" "Item_Outlet_Sales" "Item_Type"
            (constant_fit 0.5) keep_order 1 init sample_loaded _ _ _
            Hnodup eq_refl _ eq_refl).
  lia.
Defined.

(** ** [sort_values] in general *)

Section SortValuesOrder.

Variable tie : list Q -> nat -> nat -> bool.
Variable A : Type.
Variable key : A -> float.
Variable ascending : bool.

Lemma goes_before_le keys (x y : keyed A) :
  goes_before tie A ascending keys x y = true -> keyed_le ascending x y.
Proof.
  unfold goes_before, keyed_le. intro H.
  apply orb_true_iff in H as [H | H].
  - destruct ascending; apply Qltb_true in H; now apply Qlt_le_weak.
  - apply andb_true_iff in H as [H _]. apply Qeq_bool_iff in H.
    destruct ascending; rewrite H; apply Qle_refl.
Qed.

Lemma not_goes_before_le keys (x y : keyed A) :
  goes_before tie A ascending keys x y = false -> keyed_le ascending y x.
Proof.
  unfold goes_before, keyed_le. intro H.
  apply orb_false_iff in H as [H _].
  destruct ascending; now apply Qltb_false in H.
Qed.

Lemma place_in_order keys (x : keyed A) (l : list (keyed A)) :
  Sorted (keyed_le ascending) l ->
  Sorted (keyed_le ascending) (place tie A ascending keys x l).
Proof.
  induction l as [| y l IH]; cbn; intro Hs.
  - constructor; constructor.
  - destruct (goes_before tie A ascending keys x y) eqn:E.
    + constructor; [exact Hs |]. constructor. now apply goes_before_le in E.
    + inversion Hs as [| ? ? Hl Hhd]; subst.
      constructor; [now apply IH |].
      apply not_goes_before_le in E.
      destruct l as [| z l]; cbn.
      * now constructor.
      * destruct (goes_before tie A ascending keys x z); constructor; trivial.
        now inversion Hhd.
Qed.

Lemma argsort_in_order (l : list (Q * A)) :
  Sorted (keyed_le ascending) (argsort tie A ascending l).
Proof.
  unfold argsort. induction (enumerate A l) as [| x e IH]; cbn.
  - constructor.
  - now apply place_in_order.
Qed.

Lemma non_nans_keys (l : list A) :
  Forall (fun p => key (snd p) = Fin (fst p)) (non_nans A key l).
Proof.
  induction l as [| a l IH]; cbn; [constructor |].
  destruct (key a) eqn:E; [constructor; trivial | exact IH].
Qed.

Lemma argsort_non_nans_keys (l : list A) :
  Forall (fun k => key (item k) = Fin (key_value k))
         (argsort tie A ascending (non_nans A key l)).
Proof.
  eapply Permutation_Forall; [symmetry; apply argsort_permutation |].
  apply Forall_forall. intros k Hk.
  apply (in_map (fun k => (key_value k, item k))) in Hk.
  rewrite enumerate_items in Hk.
  pose proof (non_nans_keys l) as H. rewrite Forall_forall in H.
  exact (H _ Hk).
Qed.

Lemma non_nans_split (l : list A) :
  Permutation (map snd (non_nans A key l) ++ filter (fun a => isnan (key a)) l) l.
Proof.
  induction l as [| a l IH]; cbn; [constructor |].
  destruct (key a); cbn.
  - now constructor.
  - rewrite <- Permutation_middle. now constructor.
Qed.

Lemma sort_values_permutation (l : list A) :
  Permutation (sort_values tie A key ascending l) l.
Proof.
  unfold sort_values. rewrite <- (non_nans_split l) at 3.
  apply Permutation_app_tail.
  rewrite (argsort_permutation tie A ascending).
  replace (map item (enumerate A (non_nans A key l)))
    with (map snd (map (fun k => (key_value k, item k))
                       (enumerate A (non_nans A key l))))
    by now rewrite map_map.
  now rewrite enumerate_items.
Qed.

Lemma sorted_then_missing (l1 l2 : list A) :
  Sorted (fun a b => key_le ascending (key a) (key b)) l1 ->
  Forall (fun a => key a = NaN) l2 ->
  Sorted (fun a b => key_le ascending (key a) (key b)) (l1 ++ l2).
Proof.
  intros H1 H2.
  assert (Hnan : Sorted (fun a b => key_le ascending (key a) (key b)) l2).
  { induction H2 as [| a l2 Ha H2 IH]; constructor; [exact IH |].
    destruct H2 as [| b l2' Hb _]; constructor.
    rewrite Hb. now destruct (key a). }
  induction H1 as [| a l1 H1 IH Hhd]; cbn; [exact Hnan |].
  constructor; [exact IH |].
  destruct Hhd as [| b l1' Hab]; cbn.
  - destruct H2 as [| b l2' Hb _]; constructor.
    rewrite Hb. now destruct (key a).
  - now constructor.
Qed.

(** The frame comes out in the order of its keys, missing keys last. *)
Lemma sort_values_in_order (l : list A) :
  Sorted (fun a b => key_le ascending (key a) (key b))
         (sort_values tie A key ascending l).
Proof.
  unfold sort_values. apply sorted_then_missing.
  - pose proof (argsort_in_order (non_nans A key l)) as Hs.
    pose proof (argsort_non_nans_keys l) as Hk.
    induction Hs as [| k ks Hs IH Hhd]; cbn; [constructor |].
    inversion Hk as [| ? ? Hk1 Hk2]; subst.
    constructor; [now apply IH |].
    destruct Hhd as [| k' ks' Hd]; cbn; constructor.
    inversion Hk2 as [| ? ? Hk3 _]; subst.
    rewrite Hk1, Hk3. exact Hd.
  - apply Forall_forall. intros a Ha. apply filter_In in Ha as [_ Ha].
    now destruct (key a).
Qed.

Lemma key_le_trans (x y z : float) :
  key_le ascending x y -> key_le ascending y z -> key_le ascending x z.
Proof.
  unfold key_le. destruct x as [a |], y as [b |], z as [c |]; trivial;
    try contradiction.
  destruct ascending; intros H1 H2; Lqa.lra.
Qed.

(** The first row stands before every other row in the order of the keys. *)
Lemma sort_values_first (l : list A) (top : A) (rest : list A) :
  sort_values tie A key ascending l = top :: rest ->
  Forall (fun a => key_le ascending (key top) (key a)) rest.
Proof.
  intro H. pose proof (sort_values_in_order l) as Hs. rewrite H in Hs.
  apply Sorted_StronglySorted in Hs.
  - now inversion Hs.
  - intros a b c. apply key_le_trans.
Qed.

End SortValuesOrder.

(** ** The listings of inelastic and elastic categories *)

(** X10.  On a result table, [get_inelastic_categories] returns exactly the
    rows with elasticity below 1, reordered by average price from high to
    low with missing averages last; so its first row, the dashboard's "top
    opportunity", has the highest average price of them, whatever its
    elasticity. *)
Theorem inelastic_categories_listing tie (self : PriceElasticityModel)
    (l : list CategoryResult) :
  elasticity_results self = Some (Table l) ->
  exists li,
    get_inelastic_categories tie self = Return (Table li)
    /\ Permutation li (filter (fun r => Qltb (elasticity (estimate r)) 1) l)
    /\ Forall (fun r => elasticity (estimate r) < 1) li
    /\ Sorted (fun a b => key_le false (avg_price (estimate a)) (avg_price (estimate b)))
              li
    /\ (forall top rest,
           li = top :: rest ->
           Forall (fun r => key_le false (avg_price (estimate top))
                                         (avg_price (estimate r))) rest).
Proof.
  intro H. unfold get_inelastic_categories. rewrite H.
  eexists. split; [reflexivity |].
  set (inelastic := filter (fun r => Qltb (elasticity (estimate r)) 1) l).
  pose proof (sort_values_permutation tie CategoryResult
                (fun r => avg_price (estimate r)) false inelastic) as Hperm.
  split; [exact Hperm |]. split.
  - eapply Permutation_Forall; [symmetry; exact Hperm |].
    apply Forall_forall. intros r Hr. apply filter_In in Hr as [_ Hr].
    now apply Qltb_true.
  - split.
    + apply (sort_values_in_order tie CategoryResult (fun r => avg_price (estimate r))).
    + intros top rest E.
      exact (sort_values_first tie CategoryResult (fun r => avg_price (estimate r))
               false inelastic top rest E).
Qed.

Lemma inelastic_categories_listing_witness :
  exists top rest,
    get_inelastic_categories keep_order
      (fst (calculate_elasticity (constant_fit 0.5) keep_order 1 sample_loaded))
    = Return (Table (top :: rest))
    /\ category (estimate top) = Text "Snacks"
    /\ Forall (fun r => key_le false (avg_price (estimate top))
                                     (avg_price (estimate r))) rest.
Proof.
  destruct (inelastic_categories_listing keep_order
              (fst (calculate_elasticity (constant_fit 0.5) keep_order 1 sample_loaded))
              _ eq_refl)
    as (li & Hli & _ & _ & _ & Htop).
  eexists. eexists. split; [reflexivity |]. split; [reflexivity |].
  apply Htop. vm_compute in Hli. injection Hli as <-. reflexivity.
Defined.

(** X11.  On a result table, [get_elastic_categories] returns exactly the
    rows with elasticity above 1, in ascending order of elasticity; rows with
    elasticity exactly 1 are in neither listing. *)
Theorem elastic_categories_listing tie (self : PriceElasticityModel)
    (l : list CategoryResult) :
  elasticity_results self = Some (Table l) ->
  exists le,
    get_elastic_categories tie self = Return (Table le)
    /\ Permutation le (filter (fun r => Qltb 1 (elasticity (estimate r))) l)
    /\ Forall (fun r => 1 < elasticity (estimate r)) le
    /\ Sorted (fun a b => elasticity (estimate a) <= elasticity (estimate b)) le
    /\ forall r, elasticity (estimate r) == 1 ->
                 ~ In r le
                 /\ ~ In r (filter (fun r => Qltb (elasticity (estimate r)) 1) l).
Proof.
  intro H. unfold get_elastic_categories. rewrite H.
  eexists. split; [reflexivity |].
  set (elastic := filter (fun r => Qltb 1 (elasticity (estimate r))) l).
  pose proof (sort_values_permutation tie CategoryResult
                (fun r => Fin (elasticity (estimate r))) true elastic) as Hperm.
  assert (Hall : Forall (fun r => 1 < elasticity (estimate r))
                   (sort_values tie CategoryResult
                      (fun r => Fin (elasticity (estimate r))) true elastic)).
  { eapply Permutation_Forall; [symmetry; exact Hperm |].
    apply Forall_forall. intros r Hr. apply filter_In in Hr as [_ Hr].
    now apply Qltb_true. }
  split; [exact Hperm |]. split; [exact Hall |]. split.
  - exact (sort_values_in_order tie CategoryResult
             (fun r => Fin (elasticity (estimate r))) true elastic).
  - intros r Hr. split; intro Hin.
    + rewrite Forall_forall in Hall. apply Hall in Hin. Lqa.lra.
    + apply filter_In in Hin as [_ Hin]. apply Qltb_true in Hin. Lqa.lra.
Qed.

Lemma elastic_categories_listing_witness :
  exists le,
    get_elastic_categories keep_order
      (fst (calculate_elasticity (constant_fit 1.5) keep_order 1 sample_loaded))
    = Return (Table le)
    /\ List.length le = 2%nat
    /\ Forall (fun r => 1 < elasticity (estimate r)) le.
Proof.
  destruct (elastic_categories_listing keep_order
              (fst (calculate_elasticity (constant_fit 1.5) keep_order 1 sample_loaded))
              _ eq_refl)
    as (le & Hle & _ & Hall & _).
  exists le. split; [exact Hle |]. split; [| exact Hall].
  vm_compute in Hle. injection Hle as <-. reflexivity.
Defined.

(** ** The summary and the listings *)

Lemma three_way_count (l : list CategoryResult) :
  List.length l
  = (count (fun r => Qltb (elasticity (estimate r)) 1) l
     + count (fun r => Qeq_bool (elasticity (estimate r)) 1) l
     + count (fun r => Qltb 1 (elasticity (estimate r))) l)%nat.
Proof.
  unfold count. induction l as [| r l IH]; cbn [filter List.length]; [reflexivity |].
  rewrite IH.
  destruct (Qltb (elasticity (estimate r)) 1) eqn:E1;
    [apply Qltb_true in E1 | apply Qltb_false in E1];
    (destruct (Qeq_bool (elasticity (estimate r)) 1) eqn:E2;
     [apply Qeq_bool_iff in E2 | apply Qeq_bool_neq in E2]);
    (destruct (Qltb 1 (elasticity (estimate r))) eqn:E3;
     [apply Qltb_true in E3 | apply Qltb_false in E3]);
    cbn [List.length]; try lia; exfalso; Lqa.lra.
Qed.

(** X12.  The summary and the two listings count the same table differently:
    [inelastic_categories] is the number of rows of the inelastic listing,
    but [elastic_categories] is the number of rows of the elastic listing
    plus the rows whose elasticity is exactly 1. *)
Theorem summary_counts_listings tie (self : PriceElasticityModel)
    (l : list CategoryResult) :
  elasticity_results self = Some (Table l) ->
  exists li le stats,
    get_inelastic_categories tie self = Return (Table li)
    /\ get_elastic_categories tie self = Return (Table le)
    /\ get_summary_stats self = Return (Some stats)
    /\ inelastic_categories stats = List.length li
    /\ elastic_categories stats
       = Z.of_nat (List.length le
                   + count (fun r => Qeq_bool (elasticity (estimate r)) 1) l).
Proof.
  intro H. unfold get_inelastic_categories, get_elastic_categories, get_summary_stats.
  rewrite H. eexists. eexists. eexists.
  repeat (split; [reflexivity |]). cbn [inelastic_categories elastic_categories].
  rewrite !(Permutation_length (sort_values_permutation _ _ _ _ _)).
  split; [reflexivity |].
  rewrite (three_way_count l). unfold count. lia.
Qed.

Lemma summary_counts_listings_witness :
  exists stats,
    get_summary_stats
      {| elasticity_results :=
           Some (Table [scenario_row;
                        enrich {| category := Text "Snacks"; elasticity := 1;
                                  p_value := Fin 0.2; r_squared := Fin 0.5;
                                  avg_price := Fin 20; median_price := Fin 20;
                                  total_sales := Fin 7; num_products := 3 |}]);
         df := None |}
    = Return (Some stats)
    /\ inelastic_categories stats = 1%nat
    /\ elastic_categories stats = 1%Z.
Proof.
  destruct (summary_counts_listings keep_order
              {| elasticity_results :=
                   Some (Table [scenario_row;
                                enrich {| category := Text "Snacks"; elasticity := 1;
                                          p_value := Fin 0.2; r_squared := Fin 0.5;
                                          avg_price := Fin 20; median_price := Fin 20;
                                          total_sales := Fin 7; num_products := 3 |}]);
                 df := None |} _ eq_refl)
    as (li & le & stats & Hli & Hle & Hst & Hi & He).
  exists stats. split; [exact Hst |].
  vm_compute in Hli, Hle. injection Hli as <-. injection Hle as <-.
  split; [exact Hi | exact He].
Defined.

(** X13.  On the table an estimation returns, the listings agree with the
    [can_increase_price] column except at elasticity 1: every row of the
    inelastic listing is flagged ['Yes'], every row of the elastic listing is
    flagged ['No'] and typed elastic or highly elastic, and a row flagged
    ['Yes'] that the inelastic listing leaves out has elasticity exactly 1. *)
Theorem listings_agree_with_flags OLS_fit tie tie' (min_observations : Z)
    (self self' : PriceElasticityModel) (l : list CategoryResult) :
  calculate_elasticity OLS_fit tie min_observations self = (self', Return (Table l)) ->
  exists li le,
    get_inelastic_categories tie' self' = Return (Table li)
    /\ get_elastic_categories tie' self' = Return (Table le)
    /\ Forall (fun r => can_increase_price r = Yes) li
    /\ Forall (fun r => can_increase_price r = No
                        /\ (demand_type r = Elastic \/ demand_type r = HighlyElastic)) le
    /\ forall r, In r l -> can_increase_price r = Yes -> ~ In r li ->
                 elasticity (estimate r) == 1.
Proof.
  intro H.
  apply calculate_elasticity_returns in H as (_ & fits & _ & _ & _ & Ht & ->).
  injection Ht as ->.
  pose proof (enrich_flags (sort_by_elasticity tie fits)) as Hflags.
  set (l := map enrich (sort_by_elasticity tie fits)) in *.
  unfold get_inelastic_categories, get_elastic_categories.
  cbn [elasticity_results set_elasticity_results].
  eexists. eexists. repeat (split; [reflexivity |]).
  rewrite Forall_forall in Hflags. repeat split.
  - eapply Permutation_Forall; [symmetry; apply sort_values_permutation |].
    apply Forall_forall. intros r Hr. apply filter_In in Hr as [Hin Hr].
    destruct (Hflags r Hin) as [-> _]. apply Qltb_true in Hr.
    apply can_increase_price_flag_yes. Lqa.lra.
  - eapply Permutation_Forall; [symmetry; apply sort_values_permutation |].
    apply Forall_forall. intros r Hr. apply filter_In in Hr as [Hin Hr].
    destruct (Hflags r Hin) as [-> ->]. apply Qltb_true in Hr. split.
    + unfold can_increase_price_flag.
      now replace (Qltb 1 (elasticity (estimate r))) with true
        by (symmetry; now apply Qltb_true).
    + assert (Habs : 1 < Qabs (elasticity (estimate r))).
      { rewrite Qabs_pos; Lqa.lra. }
      destruct (Qlt_le_dec (Qabs (elasticity (estimate r))) 1.5) as [Hlt | Hge].
      * left. now apply classify_demand_cases.
      * right. now apply classify_demand_cases.
  - intros r Hin Hyes Hnot.
    destruct (Hflags r Hin) as [Hf _]. rewrite Hf in Hyes.
    apply can_increase_price_flag_yes in Hyes.
    destruct (Qltb (elasticity (estimate r)) 1) eqn:E.
    + exfalso. apply Hnot.
      apply (Permutation_in r (Permutation_sym (sort_values_permutation _ _ _ _ _))).
      apply filter_In. now split.
    + apply Qltb_false in E. Lqa.lra.
Qed.

Lemma listings_agree_with_flags_witness :
  exists li le,
    get_inelastic_categories keep_order
      (fst (calculate_elasticity (constant_fit 0.5) keep_order 1 sample_loaded))
    = Return (Table li)
    /\ get_elastic_categories keep_order
         (fst (calculate_elasticity (constant_fit 0.5) keep_order 1 sample_loaded))
       = Return (Table le)
    /\ List.length li = 2%nat
    /\ Forall (fun r => can_increase_price r = Yes) li.
Proof.
  destruct (listings_agree_with_flags (constant_fit 0.5) keep_order keep_order 1
              sample_loaded _ _ eq_refl)
    as (li & le & Hli & Hle & Hyes & _).
  exists li, le. split; [exact Hli |]. split; [exact Hle |]. split; [| exact Hyes].
  vm_compute in Hli. injection Hli as <-. reflexivity.
Defined.

(** ** The summary *)

(** X14.  In the summary of a result table the inelastic and elastic counts
    add up to the total, the significant results are at most the total, the
    inelastic percentage lies between 0 and 100 and is the inelastic share of
    the total, and the average elasticity is [NaN] exactly when the table has
    no rows. *)
Theorem summary_invariants (self : PriceElasticityModel) (l : list CategoryResult) :
  elasticity_results self = Some (Table l) ->
  exists stats,
    get_summary_stats self = Return (Some stats)
    /\ total_categories stats = List.length l
    /\ (Z.of_nat (inelastic_categories stats) + elastic_categories stats
        = Z.of_nat (total_categories stats))%Z
    /\ (0 <= elastic_categories stats)%Z
    /\ (significant_results stats <= total_categories stats)%nat
    /\ 0 <= inelastic_pct stats <= 100
    /\ inelastic_pct stats * inject_Z (Z.of_nat (total_categories stats))
       == inject_Z (Z.of_nat (inelastic_categories stats)) * 100
    /\ (avg_elasticity stats = NaN <-> l = []).
Proof.
  intro H. unfold get_summary_stats. rewrite H. eexists. split; [reflexivity |].
  cbn [total_categories inelastic_categories elastic_categories significant_results
       inelastic_pct avg_elasticity].
  set (i := count (fun r => Qltb (elasticity (estimate r)) 1) l).
  assert (Hi : (i <= List.length l)%nat) by apply filter_length_bound.
  split; [reflexivity |]. split; [lia |]. split; [lia |].
  split; [apply filter_length_bound |].
  assert (Hpct :
    0 <= (if (0 <? List.length l)%nat
          then inject_Z (Z.of_nat i) / inject_Z (Z.of_nat (List.length l)) * 100
          else 0) <= 100
    /\ (if (0 <? List.length l)%nat
        then inject_Z (Z.of_nat i) / inject_Z (Z.of_nat (List.length l)) * 100
        else 0) * inject_Z (Z.of_nat (List.length l))
       == inject_Z (Z.of_nat i) * 100).
  { destruct (Nat.ltb_spec 0 (List.length l)) as [Hpos | Hzero].
    - set (n := inject_Z (Z.of_nat (List.length l))).
      set (q := inject_Z (Z.of_nat i)).
      assert (Hn : 0 < n).
      { unfold n. replace 0 with (inject_Z 0) by reflexivity. rewrite <- Zlt_Qlt. lia. }
      assert (Hq0 : 0 <= q) by apply inject_nat_nonneg.
      assert (Hqn : q <= n) by (unfold q, n; rewrite <- Zle_Qle; lia).
      assert (H0 : 0 <= q / n) by (apply Qle_shift_div_l; [exact Hn | Lqa.lra]).
      assert (H1 : q / n <= 1) by (apply Qle_shift_div_r; [exact Hn | Lqa.lra]).
      repeat split; try Lqa.lra.
      field; intro E; rewrite E in Hn; now apply Qlt_irrefl in Hn.
    - assert (E0 : i = 0%nat) by lia. rewrite E0.
      replace (List.length l) with 0%nat by lia. cbn. repeat split; Lqa.lra. }
  destruct Hpct as [Hb Hshare]. split; [exact Hb |]. split; [exact Hshare |].
  unfold series_mean.
  rewrite <- (map_map (fun r => elasticity (estimate r)) Fin), dropna_values_finite.
  destruct l as [| r l']; cbn [map]; split; intro E; try discriminate; reflexivity.
Qed.

Lemma summary_invariants_witness :
  exists stats,
    get_summary_stats scenario_model = Return (Some stats)
    /\ total_categories stats = 1%nat
    /\ inelastic_pct stats == 100
    /\ avg_elasticity stats <> NaN.
Proof.
  destruct (summary_invariants scenario_model [scenario_row] eq_refl)
    as (stats & Hst & Ht & _ & _ & _ & _ & _ & Havg).
  exists stats. split; [exact Hst |]. split; [exact Ht |]. split.
  - cbn in Hst. injection Hst as <-. reflexivity.
  - intro E. apply Havg in E. discriminate.
Defined.

Lemma inject_succ (n : nat) :
  inject_Z (Z.of_nat (S n)) == inject_Z (Z.of_nat n) + 1.
Proof.
  rewrite Nat2Z.inj_succ. unfold Z.succ. now rewrite inject_Z_plus.
Qed.

Lemma sum_at_most (hi : Q) (qs : list Q) :
  Forall (fun q => q <= hi) qs ->
  Qsum qs <= hi * inject_Z (Z.of_nat (List.length qs)).
Proof.
  induction 1 as [| q qs Hq _ IH]; unfold Qsum in *; cbn [fold_right List.length].
  - change (inject_Z (Z.of_nat 0)) with 0. Lqa.lra.
  - rewrite inject_succ. Lqa.lra.
Qed.

Lemma sum_at_least (lo : Q) (qs : list Q) :
  Forall (fun q => lo <= q) qs ->
  lo * inject_Z (Z.of_nat (List.length qs)) <= Qsum qs.
Proof.
  induction 1 as [| q qs Hq _ IH]; unfold Qsum in *; cbn [fold_right List.length].
  - change (inject_Z (Z.of_nat 0)) with 0. Lqa.lra.
  - rewrite inject_succ. Lqa.lra.
Qed.

Lemma length_positive {A : Type} (l : list A) :
  l <> [] -> 0 < inject_Z (Z.of_nat (List.length l)).
Proof.
  intro H. replace 0 with (inject_Z 0) by reflexivity. rewrite <- Zlt_Qlt.
  destruct l; [contradiction | cbn; lia].
Qed.

Lemma mean_at_most (hi : Q) (qs : list Q) :
  qs <> [] -> Forall (fun q => q <= hi) qs -> Qmean qs <= hi.
Proof.
  intros Hne H. unfold Qmean.
  apply Qle_shift_div_r; [now apply length_positive | now apply sum_at_most].
Qed.

Lemma mean_at_least (lo : Q) (qs : list Q) :
  qs <> [] -> Forall (fun q => lo <= q) qs -> lo <= Qmean qs.
Proof.
  intros Hne H. unfold Qmean.
  apply Qle_shift_div_l; [now apply length_positive | now apply sum_at_least].
Qed.

Lemma series_mean_finite (qs : list Q) :
  qs <> [] -> series_mean (map Fin qs) = Fin (Qmean qs).
Proof.
  intro H. unfold series_mean. rewrite dropna_values_finite.
  destruct qs; [contradiction | reflexivity].
Qed.

Lemma strongly_sorted_last {A : Type} (R : A -> A -> Prop) (l : list A) (z : A) :
  StronglySorted R (l ++ [z]) -> Forall (fun x => R x z) l.
Proof.
  induction l as [| a l IH]; cbn; intro H; [constructor |].
  inversion H as [| ? ? Hs Hall]; subst. constructor.
  - rewrite Forall_forall in Hall. apply Hall. apply in_or_app. right. now left.
  - now apply IH.
Qed.

(** The table an estimation returns is strongly sorted by elasticity. *)
Lemma result_table_strongly_sorted tie (fits : list Estimate) :
  StronglySorted (fun a b => elasticity (estimate b) <= elasticity (estimate a))
                 (map enrich (sort_by_elasticity tie fits)).
Proof.
  apply Sorted_StronglySorted.
  - intros a b c H1 H2. Lqa.lra.
  - apply (Sorted_map (fun a b => elasticity b <= elasticity a)); [auto |].
    apply sort_by_elasticity_sorted.
Qed.

(** X15.  After a successful estimation the summary counts at least one
    category and its average elasticity is a number that lies between the
    elasticity of the last row and that of the first row of the table. *)
Theorem average_between_extremes OLS_fit tie (min_observations : Z)
    (self self' : PriceElasticityModel) (l : list CategoryResult) :
  calculate_elasticity OLS_fit tie min_observations self = (self', Return (Table l)) ->
  exists stats m,
    get_summary_stats self' = Return (Some stats)
    /\ (1 <= total_categories stats)%nat
    /\ avg_elasticity stats = Fin m
    /\ (forall first rest, l = first :: rest -> m <= elasticity (estimate first))
    /\ (forall init final, l = (init ++ [final])%list ->
                           elasticity (estimate final) <= m).
Proof.
  intro H.
  apply calculate_elasticity_returns in H as (_ & fits & _ & _ & Hne & Ht & ->).
  injection Ht as ->.
  pose proof (result_table_strongly_sorted tie fits) as Hs.
  assert (Hl : map enrich (sort_by_elasticity tie fits) <> []).
  { intro E. apply map_eq_nil in E.
    pose proof (sort_by_elasticity_permutation tie fits) as Hp.
    rewrite E in Hp. apply Permutation_nil in Hp. contradiction. }
  set (l := map enrich (sort_by_elasticity tie fits)) in *.
  set (qs := map (fun r => elasticity (estimate r)) l).
  assert (Hqs : qs <> []).
  { intro E. apply map_eq_nil in E. contradiction. }
  unfold get_summary_stats. cbn [elasticity_results set_elasticity_results].
  eexists. exists (Qmean qs). split; [reflexivity |].
  cbn [total_categories avg_elasticity]. split.
  { destruct l; [contradiction | cbn; lia]. }
  split.
  { rewrite <- (map_map (fun r => elasticity (estimate r)) Fin).
    now apply series_mean_finite. }
  split.
  - intros first rest E. apply mean_at_most; [exact Hqs |].
    unfold qs. rewrite Forall_map. rewrite E in Hs |- *.
    inversion Hs as [| ? ? _ Hall]; subst.
    constructor; [apply Qle_refl | exact Hall].
  - intros init final E. apply mean_at_least; [exact Hqs |].
    unfold qs. rewrite Forall_map. rewrite E in Hs |- *.
    apply Forall_app. split.
    + exact (strongly_sorted_last
               (fun a b => elasticity (estimate b) <= elasticity (estimate a))
               init final Hs).
    + constructor; [apply Qle_refl | constructor].
Qed.

Lemma average_between_extremes_witness :
  exists stats m,
    get_summary_stats
      (fst (calculate_elasticity (constant_fit 0.5) keep_order 1 sample_loaded))
    = Return (Some stats)
    /\ total_categories stats = 2%nat
    /\ avg_elasticity stats = Fin m
    /\ m == 0.5.
Proof.
  destruct (average_between_extremes (constant_fit 0.5) keep_order 1 sample_loaded
              _ _ eq_refl)
    as (stats & m & Hst & _ & Hm & _).
  exists stats, m. split; [exact Hst |].
  vm_compute in Hst. injection Hst as <-.
  split; [reflexivity |]. split; [exact Hm |].
  cbn in Hm. injection Hm as <-. reflexivity.
Defined.

(** ** The classifier and the flag together *)

Lemma demand_rank_cases (e : Q) :
  (Qabs e < 0.5 /\ demand_rank (_classify_demand e) = 0%nat)
  \/ (0.5 <= Qabs e /\ Qabs e < 1 /\ demand_rank (_classify_demand e) = 1%nat)
  \/ (Qabs e == 1 /\ demand_rank (_classify_demand e) = 2%nat)
  \/ (1 < Qabs e /\ Qabs e < 1.5 /\ demand_rank (_classify_demand e) = 3%nat)
  \/ (1.5 <= Qabs e /\ demand_rank (_classify_demand e) = 4%nat).
Proof.
  pose proof (classify_demand_cases e) as (H1 & H2 & H3 & H4 & H5).
  destruct (Qlt_le_dec (Qabs e) 0.5) as [L1 | G1].
  { left. now rewrite (H1 L1). }
  destruct (Qlt_le_dec (Qabs e) 1) as [L2 | G2].
  { right. left. now rewrite (H2 (conj G1 L2)). }
  destruct (Qlt_le_dec 1 (Qabs e)) as [L3 | G3].
  - destruct (Qlt_le_dec (Qabs e) 1.5) as [L4 | G4].
    + right. right. right. left. now rewrite (H4 (conj L3 L4)).
    + right. right. right. right. now rewrite (H5 G4).
  - right. right. left. assert (E : Qabs e == 1) by Lqa.lra. now rewrite (H3 E).
Qed.

(** X16.  The demand types follow the size of the elasticity: a larger
    absolute value never gets a type of lower rank (highly inelastic,
    inelastic, unit elastic, elastic, highly elastic). *)
Theorem classify_demand_monotone (e1 e2 : Q) :
  Qabs e1 <= Qabs e2 ->
  (demand_rank (_classify_demand e1) <= demand_rank (_classify_demand e2))%nat.
Proof.
  intro H.
  destruct (demand_rank_cases e1) as [A | [A | [A | [A | A]]]];
    destruct (demand_rank_cases e2) as [B | [B | [B | [B | B]]]];
    repeat match goal with
           | H : _ /\ _ |- _ => destruct H
           end;
    try lia; exfalso; Lqa.lra.
Qed.

Lemma classify_demand_monotone_witness :
  Qabs 0.7 <= Qabs (-1.2)
  /\ (demand_rank (_classify_demand 0.7) <= demand_rank (_classify_demand (-1.2)))%nat.
Proof.
  assert (H : Qabs 0.7 <= Qabs (-1.2)) by (vm_compute; discriminate).
  split; [exact H | exact (classify_demand_monotone 0.7 (-1.2) H)].
Defined.

(** X17.  The flag and the demand type agree for elasticities that are not
    negative and disagree below -1: a ['No'] always comes with an elastic or
    highly elastic type; from 0 on, ['Yes'] comes exactly with the types up to
    unit elastic; but every elasticity below -1 is typed elastic or highly
    elastic and still flagged ['Yes']. *)
Theorem flag_and_demand_type (e : Q) :
  (can_increase_price_flag e = No ->
   _classify_demand e = Elastic \/ _classify_demand e = HighlyElastic)
  /\ (0 <= e ->
      (can_increase_price_flag e = Yes
       <-> (demand_rank (_classify_demand e) <= 2)%nat))
  /\ (e < -1 ->
      can_increase_price_flag e = Yes
      /\ (_classify_demand e = Elastic \/ _classify_demand e = HighlyElastic)).
Proof.
  pose proof (classify_demand_cases e) as (_ & _ & _ & H4 & H5).
  assert (Hbig : 1 < Qabs e ->
                 _classify_demand e = Elastic \/ _classify_demand e = HighlyElastic).
  { intro Habs. destruct (Qlt_le_dec (Qabs e) 1.5); [left | right]; auto. }
  repeat split.
  - intro Hno. apply Hbig.
    destruct (can_increase_price_flag e) eqn:E; [discriminate |].
    assert (Hgt : 1 < e).
    { apply Qnot_le_lt. intro Hle. apply can_increase_price_flag_yes in Hle. congruence. }
    rewrite Qabs_pos; Lqa.lra.
  - intro Hyes. apply can_increase_price_flag_yes in Hyes.
    rewrite <- (Qabs_pos e H) in Hyes.
    destruct (demand_rank_cases e) as [A | [A | [A | [A | A]]]];
      repeat match goal with
             | H : _ /\ _ |- _ => destruct H
             end;
      try lia; exfalso; Lqa.lra.
  - intro Hrank. apply can_increase_price_flag_yes.
    rewrite <- (Qabs_pos e H).
    destruct (demand_rank_cases e) as [A | [A | [A | [A | A]]]];
      repeat match goal with
             | H : _ /\ _ |- _ => destruct H
             end;
      try Lqa.lra; lia.
  - apply can_increase_price_flag_yes. Lqa.lra.
  - apply Hbig. rewrite Qabs_neg; Lqa.lra.
Qed.

(** ** The simulation and the dashboard's reading of it *)

(** What a returned simulation is made of. *)
Lemma simulate_returns (self : PriceElasticityModel) (category_name : string)
    (p : Q) (s : Simulation.SimulationResult) :
  simulate_price_change category_name p self = Return (Some s) ->
  exists row,
    s = {| Simulation.category := category_name;
           Simulation.current_price := avg_price row;
           Simulation.new_price := fmul (avg_price row) (Fin (1 + p));
           Simulation.elasticity := elasticity row;
           Simulation.price_change_pct := p * 100;
           Simulation.quantity_change_pct := elasticity row * p * 100;
           Simulation.revenue_change_pct :=
             ((1 + p) * (1 + elasticity row * p) - 1) * 100;
           Simulation.estimated_revenue_impact :=
             fmul (total_sales row) (Fin ((1 + p) * (1 + elasticity row * p) - 1));
           Simulation.current_total_sales := total_sales row |}.
Proof.
  unfold simulate_price_change.
  destruct (elasticity_results self) as [[| l] |]; try discriminate.
  destruct (filter (category_is category_name) l) as [| r rest]; [discriminate |].
  intro H. injection H as <-. now exists (estimate r).
Qed.

(** X18.  The fields of a returned simulation fit together: it echoes the
    category and the price change as a percentage; the quantity change is the
    elasticity times the price change; the three percentages compose as
    [1 + revenue/100 = (1 + price/100) * (1 + quantity/100)]; the revenue
    impact is the total sales times the revenue change as a fraction; and a
    price change of 0 changes nothing. *)
Theorem simulation_is_consistent (self : PriceElasticityModel) (category_name : string)
    (p : Q) (s : Simulation.SimulationResult) :
  simulate_price_change category_name p self = Return (Some s) ->
  Simulation.category s = category_name
  /\ Simulation.price_change_pct s == p * 100
  /\ Simulation.quantity_change_pct s
     == Simulation.elasticity s * Simulation.price_change_pct s
  /\ 1 + Simulation.revenue_change_pct s / 100
     == (1 + Simulation.price_change_pct s / 100)
        * (1 + Simulation.quantity_change_pct s / 100)
  /\ feq (Simulation.estimated_revenue_impact s)
         (fmul (Simulation.current_total_sales s)
               (Fin (Simulation.revenue_change_pct s / 100)))
  /\ (p == 0 ->
      Simulation.quantity_change_pct s == 0
      /\ Simulation.revenue_change_pct s == 0
      /\ feq (Simulation.new_price s) (Simulation.current_price s)
      /\ feq (Simulation.estimated_revenue_impact s)
             (fmul (Simulation.current_total_sales s) (Fin 0))).
Proof.
  intro H. apply simulate_returns in H as (row & ->). cbn.
  split; [reflexivity |]. split; [reflexivity |].
  split; [ring |]. split; [field |]. split.
  - destruct (total_sales row); cbn; [field | trivial].
  - intro Hp. repeat split.
    + rewrite Hp. ring.
    + rewrite Hp. ring.
    + destruct (avg_price row); cbn; [rewrite Hp; ring | trivial].
    + destruct (total_sales row); cbn; [rewrite Hp; ring | trivial].
Qed.

Lemma simulation_is_consistent_witness :
  exists s,
    simulate_price_change "Dairy" 0 scenario_model = Return (Some s)
    /\ Simulation.revenue_change_pct s == 0
    /\ feq (Simulation.new_price s) (Fin 100).
Proof.
  eexists. split; [reflexivity |].
  destruct (simulation_is_consistent scenario_model "Dairy" 0 _ eq_refl)
    as (_ & _ & _ & _ & _ & Hzero).
  destruct Hzero as (_ & Hr & Hn & _); [reflexivity |].
  split; [exact Hr | exact Hn].
Defined.

(** X19.  The dashboard announces an improvement, [revenue_change_pct > 0],
    exactly when [p * (1 + elasticity * (1 + p))] is positive; for a price
    increase that is when [elasticity * (1 + p) > -1], so a row flagged
    ['Yes'] with a strongly negative elasticity is announced as a loss; and
    with positive total sales the announcement holds exactly when the
    estimated revenue impact is positive. *)
Theorem improvement_criterion (self : PriceElasticityModel) (category_name : string)
    (p : Q) (s : Simulation.SimulationResult) :
  simulate_price_change category_name p self = Return (Some s) ->
  (improves_revenue s = true <-> 0 < p * (1 + Simulation.elasticity s * (1 + p)))
  /\ (0 < p ->
      (improves_revenue s = true <-> -1 < Simulation.elasticity s * (1 + p)))
  /\ (forall t, Simulation.current_total_sales s = Fin t -> 0 < t ->
                (improves_revenue s = true
                 <-> fgtb (Simulation.estimated_revenue_impact s) (Fin 0) = true)).
Proof.
  intro H. apply simulate_returns in H as (row & ->).
  unfold improves_revenue. cbn. set (e := elasticity row).
  assert (E : ((1 + p) * (1 + e * p) - 1) * 100 == p * (1 + e * (1 + p)) * 100) by ring.
  assert (Hfirst : Qltb 0 (((1 + p) * (1 + e * p) - 1) * 100) = true
                   <-> 0 < p * (1 + e * (1 + p))).
  { rewrite Qltb_true, E. split; intro; Lqa.lra. }
  split; [exact Hfirst |]. split.
  - intro Hp. rewrite Hfirst. split; intro Hx.
    + assert (0 < 1 + e * (1 + p)); [| Lqa.lra].
      destruct (Qlt_le_dec 0 (1 + e * (1 + p))) as [Hpos | Hneg]; [exact Hpos |].
      exfalso. assert (p * (1 + e * (1 + p)) <= 0) by Lqa.nra. Lqa.lra.
    + apply Qmult_lt_0_compat; [exact Hp | Lqa.lra].
  - intros t Ht Hpos. rewrite Ht. cbn. unfold fgtb, fltb.
    rewrite !Qltb_true. fold e.
    set (x := (1 + p) * (1 + e * p) - 1). split; intro Hx.
    + apply Qmult_lt_0_compat; [exact Hpos | Lqa.lra].
    + assert (0 < x); [| Lqa.lra].
      destruct (Qlt_le_dec 0 x) as [Hx0 | Hx0]; [exact Hx0 |].
      exfalso. assert (t * x <= 0) by Lqa.nra. Lqa.lra.
Qed.

Lemma improvement_criterion_witness :
  exists s,
    simulate_price_change "Dairy" 0.05 scenario_model = Return (Some s)
    /\ improves_revenue s = true
    /\ -1 < Simulation.elasticity s * (1 + 0.05).
Proof.
  eexists. split; [reflexivity |]. split; [reflexivity |].
  destruct (improvement_criterion scenario_model "Dairy" 0.05 _ eq_refl)
    as (_ & Hinc & _).
  apply Hinc; reflexivity.
Defined.

(** X20.  In the overview a bar is green exactly when the elasticity is
    below 1.  A green bar always comes with the flag ['Yes'], a red bar with
    the flag ['Yes'] only at elasticity exactly 1, and the number of green
    bars is the summary's [inelastic_categories]. *)
Theorem bar_colors_and_flags (self : PriceElasticityModel) (l : list CategoryResult) :
  elasticity_results self = Some (Table l) ->
  (forall e, bar_color e = "#27ae60" <-> e < 1)
  /\ (forall e, bar_color e = "#27ae60" -> can_increase_price_flag e = Yes)
  /\ (forall e, bar_color e = "#e74c3c" -> can_increase_price_flag e = Yes -> e == 1)
  /\ List.length (bar_colors l) = List.length l
  /\ exists stats,
       get_summary_stats self = Return (Some stats)
       /\ inelastic_categories stats
          = count (String.eqb "#27ae60") (bar_colors l).
Proof.
  intro H.
  assert (Hgreen : forall e, bar_color e = "#27ae60" <-> e < 1).
  { intro e. unfold bar_color. destruct (Qltb e 1) eqn:E.
    - apply Qltb_true in E. tauto.
    - apply Qltb_false in E. split; [discriminate | intro; exfalso; Lqa.lra]. }
  split; [exact Hgreen |]. split.
  { intros e He. apply Hgreen in He. apply can_increase_price_flag_yes. Lqa.lra. }
  split.
  { intros e Hred Hyes. apply can_increase_price_flag_yes in Hyes.
    destruct (Qlt_le_dec e 1) as [Hlt | Hge]; [| Lqa.lra].
    apply Hgreen in Hlt. rewrite Hlt in Hred. discriminate. }
  split; [apply length_map |].
  unfold get_summary_stats. rewrite H. eexists. split; [reflexivity |].
  cbn [inelastic_categories]. unfold count, bar_colors.
  rewrite filter_on_map, length_map. f_equal. apply filter_ext. intro r.
  unfold bar_color. now destruct (Qltb (elasticity (estimate r)) 1).
Qed.

Lemma bar_colors_and_flags_witness :
  bar_colors [scenario_row] = ["#27ae60"]
  /\ exists stats,
       get_summary_stats scenario_model = Return (Some stats)
       /\ inelastic_categories stats = 1%nat.
Proof.
  split; [reflexivity |].
  destruct (bar_colors_and_flags scenario_model [scenario_row] eq_refl)
    as (_ & _ & _ & _ & stats & Hst & Hi).
  exists stats. split; [exact Hst | exact Hi].
Defined.

(** ** After a failed load *)

(** X21.  A load that fails on a missing column leaves the renamed table in
    [self.df], so the correlation does not return [None] afterwards: it
    raises [KeyError] for the first of the missing columns. *)
Theorem correlation_after_failed_load np_mean csv price_col sales_col category_col
    (self self' : PriceElasticityModel) (missing : list string) :
  load_data csv price_col sales_col category_col self
  = (self', Raise (KeyError missing)) ->
  exists label rest,
    missing = label :: rest
    /\ df self' = Some (rename (column_mapper price_col sales_col category_col) csv)
    /\ get_correlation np_mean self' = Raise (KeyError [label]).
Proof.
  unfold load_data, dropna.
  set (renamed := rename (column_mapper price_col sales_col category_col) csv).
  destruct (missing_labels ["price"; "sales"] renamed) as [| m ms] eqn:Hm.
  - destruct (dropna_when_present renamed Hm) as (_ & Hp & Hs).
    set (present := select_rows _ renamed).
    destruct (_ <- numeric_column "price" present ;; numeric_column "sales" present)
      as [ok | e'] eqn:E; [discriminate |].
    intro H. injection H as _ He. exfalso.
    assert (Hp' : has_column "price" present = true) by exact Hp.
    assert (Hs' : has_column "sales" present = true) by exact Hs.
    destruct (numeric_column "price" present) eqn:E1; cbn [bind] in E.
    + apply numeric_column_raises in E; [congruence | exact Hs'].
    + injection E as <-. apply numeric_column_raises in E1; [congruence | exact Hp'].
  - intro H. injection H as <- <-. exists m, ms. split; [reflexivity |].
    split; [reflexivity |].
    clearbody renamed.
    unfold get_correlation. cbn [df set_df].
    unfold missing_labels in Hm. cbn [filter] in Hm.
    unfold get_column. unfold has_column in Hm.
    destruct (index_of "price" (columns renamed)) as [i |] eqn:Ei; cbn in Hm.
    + destruct (index_of "sales" (columns renamed)) as [j |] eqn:Ej; cbn in Hm;
        [discriminate |].
      injection Hm as <- <-. reflexivity.
    + destruct (index_of "sales" (columns renamed)); cbn in Hm;
        injection Hm as <- _; reflexivity.
Qed.

Lemma correlation_after_failed_load_witness :
  snd (load_data sample_csv "MRP" "Item_Outlet_Sales" "Item_Type" init)
  = Raise (KeyError ["price"])
  /\ get_correlation double_mean
       (fst (load_data sample_csv "MRP" "Item_Outlet_Sales" "Item_Type" init))
     = Raise (KeyError ["price"]).
Proof.
  split; [reflexivity |].
  destruct (correlation_after_failed_load double_mean sample_csv "MRP" "Item_Outlet_Sales"
              "Item_Type" init _ _ eq_refl)
    as (label & rest & Hm & _ & Hc).
  injection Hm as <- _. exact Hc.
Defined.

(** ** Estimations that fail *)

Lemma fit_categories_all_small OLS_fit d (k : Z) (categories : list cell)
    (acc : list Estimate) :
  (Z.of_nat (len d) < k)%Z ->
  fit_categories OLS_fit d k categories acc = Return acc.
Proof.
  intro H. induction categories as [| c cats IH]; cbn [fit_categories]; [reflexivity |].
  assert (Hsmall : (Z.of_nat (len (select_rows
                      (fun row => cell_eqb (cell_of d "category" row) c) d)) <? k)%Z
                   = true).
  { apply Z.ltb_lt. unfold len, select_rows. cbn [rows].
    pose proof (filter_length_bound
                  (fun row => cell_eqb (cell_of d "category" row) c) (rows d)).
    unfold len in H. lia. }
  now rewrite Hsmall.
Qed.

(** X22.  When [min_observations] exceeds the number of loaded rows, no
    category is fitted: [calculate_elasticity] raises [KeyError] for
    ['elasticity'] and replaces any earlier result table by a frame without
    columns, on which the simulation, the summary and both listings raise
    [KeyError] as well. *)
Theorem estimation_without_rows OLS_fit tie (min_observations : Z)
    (self : PriceElasticityModel) (d : DataFrame) :
  df self = Some d ->
  has_column "category" d = true ->
  (Z.of_nat (len d) < min_observations)%Z ->
  calculate_elasticity OLS_fit tie min_observations self
  = (set_elasticity_results self EmptyFrame, Raise (KeyError ["elasticity"]))
  /\ (forall category_name p,
         simulate_price_change category_name p (set_elasticity_results self EmptyFrame)
         = Raise (KeyError ["category"]))
  /\ get_summary_stats (set_elasticity_results self EmptyFrame)
     = Raise (KeyError ["elasticity"])
  /\ get_inelastic_categories tie (set_elasticity_results self EmptyFrame)
     = Raise (KeyError ["elasticity"])
  /\ get_elastic_categories tie (set_elasticity_results self EmptyFrame)
     = Raise (KeyError ["elasticity"]).
Proof.
  intros Hd Hc Hk. split; [| repeat split].
  unfold calculate_elasticity, fitted. rewrite Hd.
  rewrite (get_column_cells _ _ Hc). cbn [bind].
  now rewrite (fit_categories_all_small OLS_fit d min_observations _ [] Hk).
Qed.

Lemma estimation_without_rows_witness :
  calculate_elasticity (constant_fit 0.5) keep_order 10 sample_loaded
  = (set_elasticity_results sample_loaded EmptyFrame, Raise (KeyError ["elasticity"]))
  /\ get_summary_stats (set_elasticity_results sample_loaded EmptyFrame)
     = Raise (KeyError ["elasticity"]).
Proof.
  destruct (estimation_without_rows (constant_fit 0.5) keep_order 10 sample_loaded
              {| columns := ["category"; "price"; "sales"];
                 rows := [ [Text "Dairy"; Number (Fin 10); Number (Fin 5)];
                           [Text "Snacks"; Number (Fin 20); Number (Fin 7)];
                           [Text "Dairy"; Number (Fin 12); Number (Fin 6)] ] |}
              eq_refl eq_refl)
    as (H1 & _ & H2 & _).
  - cbn. lia.
  - split; [exact H1 | exact H2].
Defined.

(** X23.  A table loaded without a category column is rejected only at the
    estimation: after the successful load, [calculate_elasticity] raises
    [KeyError] for ['category'] whatever the minimum, and changes nothing.
    Column labels are taken to be distinct after the renaming. *)
Theorem estimation_without_category_column csv price_col sales_col category_col
    OLS_fit tie (min_observations : Z) (self self1 : PriceElasticityModel)
    (report : LoadReport) :
  NoDup (columns (rename (column_mapper price_col sales_col category_col) csv)) ->
  load_data csv price_col sales_col category_col self = (self1, Return report) ->
  has_column "category" (rename (column_mapper price_col sales_col category_col) csv)
  = false ->
  calculate_elasticity OLS_fit tie min_observations self1
  = (self1, Raise (KeyError ["category"])).
Proof.
  intros _ Hload Hc.
  apply load_data_stores in Hload as (-> & _). cbv zeta.
  unfold calculate_elasticity, fitted, get_column. cbn [df set_df].
  unfold has_column in Hc. cbn [select_rows columns].
  destruct (index_of "category" _); [discriminate | reflexivity].
Qed.

Lemma estimation_without_category_column_witness :
  exists self1 report,
    load_data csv_without_category "Item_MRP" "Item_Outlet_Sales" "Item_Type" init
    = (self1, Return report)
    /\ calculate_elasticity (constant_fit 0.5) keep_order 1 self1
       = (self1, Raise (KeyError ["category"])).
Proof.
  eexists. eexists. split; [reflexivity |].
  now apply (estimation_without_category_column csv_without_category
               "Item_MRP" "Item_Outlet_Sales" "Item_Type" (constant_fit 0.5)
               keep_order 1 init _ _ ltac:(labels_distinct) eq_refl).
Defined.

(** ** The column selectors *)

Lemma index_of_mapped (f : string -> string) (l : list string) (x : string) :
  In x l -> exists i, index_of (f x) (map f l) = Some i.
Proof.
  induction l as [| y l IH]; cbn; intro H; [destruct H |].
  destruct (String.eqb_spec (f y) (f x)) as [_ | Hne]; [now exists 0%nat |].
  destruct H as [-> | H]; [contradiction |].
  destruct (IH H) as (i & ->). now exists (S i).
Qed.

Lemma index_of_absent (f : string -> string) (l : list string) (y : string) :
  (forall x, In x l -> f x <> y) -> index_of y (map f l) = None.
Proof.
  induction l as [| x l IH]; cbn; intro H; [reflexivity |].
  destruct (String.eqb_spec (f x) y) as [E | _].
  - exfalso. apply (H x); [now left | exact E].
  - rewrite IH; [reflexivity |]. intros z Hz. apply H. now right.
Qed.

Lemma mapper_price (price_col sales_col category_col : string) :
  price_col <> sales_col -> price_col <> category_col ->
  dict_get price_col (column_mapper price_col sales_col category_col) = Some "price".
Proof.
  intros H1 H2. unfold column_mapper. cbn [dict_set].
  apply String.eqb_neq in H1, H2. rewrite H1. cbn [dict_set]. rewrite H2.
  cbn [dict_get]. now rewrite String.eqb_refl.
Qed.

Lemma mapper_sales (price_col sales_col category_col : string) :
  price_col <> sales_col -> sales_col <> category_col ->
  dict_get sales_col (column_mapper price_col sales_col category_col) = Some "sales".
Proof.
  intros H1 H2. unfold column_mapper. cbn [dict_set].
  apply String.eqb_neq in H1, H2. rewrite H1. cbn [dict_set].
  destruct (String.eqb price_col category_col); cbn [dict_get dict_set].
  - rewrite H1. cbn [dict_get]. now rewrite String.eqb_refl.
  - rewrite H1, H2. cbn [dict_get]. now rewrite String.eqb_refl.
Qed.

(** X24.  When the price and sales selectors name two different columns of
    the source, both different from the category selector, the renamed table
    has the columns ['price'] and ['sales'] and the load raises no
    [KeyError]: it succeeds or raises [TypeError].  Column labels are taken to
    be distinct after the renaming. *)
Theorem load_data_finds_selected_columns csv price_col sales_col category_col self :
  NoDup (columns (rename (column_mapper price_col sales_col category_col) csv)) ->
  In price_col (columns csv) ->
  In sales_col (columns csv) ->
  price_col <> sales_col ->
  price_col <> category_col ->
  sales_col <> category_col ->
  missing_labels ["price"; "sales"]
    (rename (column_mapper price_col sales_col category_col) csv) = []
  /\ (snd (load_data csv price_col sales_col category_col self) = Raise TypeError
      \/ exists report,
           snd (load_data csv price_col sales_col category_col self) = Return report).
Proof.
  intros _ Hp Hs Hps Hpc Hsc.
  set (f := fun l => match dict_get l (column_mapper price_col sales_col category_col)
                     with Some l' => l' | None => l end).
  assert (Hm : missing_labels ["price"; "sales"]
                 (rename (column_mapper price_col sales_col category_col) csv) = []).
  { unfold missing_labels, has_column, rename. cbn [columns filter]. fold f.
    destruct (index_of_mapped f _ _ Hp) as (i & Hi).
    destruct (index_of_mapped f _ _ Hs) as (j & Hj).
    unfold f at 1 in Hi. rewrite (mapper_price _ _ _ Hps Hpc) in Hi.
    unfold f at 1 in Hj. rewrite (mapper_sales _ _ _ Hps Hsc) in Hj.
    now rewrite Hi, Hj. }
  split; [exact Hm |].
  set (renamed := rename _ csv) in *.
  destruct (existsb (fun row => complete_row renamed row && text_row renamed row)
                    (rows csv)) eqn:E.
  - left. destruct (dropna_when_present renamed Hm) as (Hdrop & Hp' & Hs').
    destruct (mask_outcome renamed Hp' Hs') as [Htext _]. cbv zeta in Htext.
    unfold load_data. fold renamed. now rewrite Hdrop, (Htext E).
  - right. destruct (load_data_succeeds csv price_col sales_col category_col self Hm E)
      as (report & ->). now exists report.
Qed.

Lemma load_data_finds_selected_columns_witness :
  missing_labels ["price"; "sales"]
    (rename (column_mapper "Item_MRP" "Item_Outlet_Sales" "Item_Type") sample_csv) = []
  /\ exists report,
       snd (load_data sample_csv "Item_MRP" "Item_Outlet_Sales" "Item_Type" init)
       = Return report.
Proof.
  destruct (load_data_finds_selected_columns sample_csv "Item_MRP" "Item_Outlet_Sales"
              "Item_Type" init) as [Hm _].
  - labels_distinct.
  - cbn. tauto.
  - cbn. tauto.
  - discriminate.
  - discriminate.
  - discriminate.
  - split; [exact Hm |]. eexists. reflexivity.
Defined.

Lemma mapper_same_selector (price_col category_col l v : string) :
  dict_get l (column_mapper price_col price_col category_col) = Some v ->
  v = "sales" \/ v = "category".
Proof.
  unfold column_mapper. cbn [dict_set]. rewrite String.eqb_refl. cbn [dict_set].
  destruct (String.eqb price_col category_col); cbn [dict_get].
  - destruct (String.eqb price_col l); [| discriminate].
    intro H. injection H as <-. now right.
  - destruct (String.eqb price_col l).
    + intro H. injection H as <-. now left.
    + destruct (String.eqb category_col l); [| discriminate].
      intro H. injection H as <-. now right.
Qed.

(** X25.  When one source column is selected for both price and sales, the
    mapper keeps only its last entry for that key, the column becomes
    ['sales'], and, unless the source already has a column called ['price'],
    the load fails with a [KeyError] that starts with ['price']. *)
Theorem load_data_same_selector csv selector category_col self :
  ~ In "price" (columns csv) ->
  exists rest,
    load_data csv selector selector category_col self
    = (set_df self (rename (column_mapper selector selector category_col) csv),
       Raise (KeyError ("price" :: rest))).
Proof.
  intro Hno. unfold load_data, dropna, missing_labels. cbn [filter].
  assert (Hp : has_column "price"
                 (rename (column_mapper selector selector category_col) csv) = false).
  { unfold has_column, rename. cbn [columns].
    rewrite index_of_absent; [reflexivity |].
    intros x Hx E.
    destruct (dict_get x (column_mapper selector selector category_col)) as [v |] eqn:Ev.
    - apply mapper_same_selector in Ev as [-> | ->]; discriminate.
    - subst x. contradiction. }
  rewrite Hp. cbn [negb]. eexists. reflexivity.
Qed.

Lemma load_data_same_selector_witness :
  snd (load_data sample_csv "Item_MRP" "Item_MRP" "Item_Type" init)
  = Raise (KeyError ["price"]).
Proof.
  destruct (load_data_same_selector sample_csv "Item_MRP" "Item_Type" init)
    as (rest & H).
  - cbn. intuition discriminate.
  - rewrite H. cbn [snd]. vm_compute in H. injection H as <-. reflexivity.
Defined.
